(** * train_para.py: the paraphraser training driver and its evaluation routine

    A shallow embedding of [main] and [evaluate] of [train_para.py].  The
    script is straight-line Python around a numeric framework, so the
    embedding keeps what the script itself decides: the order of the calls,
    the branches, the loops, the names it resolves, the exceptions the
    interpreter raises, and the mode flags of the modules it touches.

    What lies outside the file is a parameter [env]: every call into the
    framework or into [util] either returns or raises what [ext_fail] says;
    datasets are lists of record numbers; a loader yields the collated chunks
    of its (possibly shuffled) dataset; tensors are symbolic terms that record
    where a value came from, the numerics staying outside.  Progress bars are
    left out. *)

From Stdlib Require Import ZArith List Lia.
From stdpp Require Import base gmap strings list pretty.

Open Scope string_scope.
Open Scope Z_scope.

(** ** Python values of the script *)

(** Exceptions that can leave [main] or [evaluate].  [exit(1)] raises
    [SystemExit]; the interpreter raises the next four; [External] stands for
    whatever a framework call raises (tagged by the framework). *)
Inductive exn : Type :=
| SystemExit (code : Z)
| NameError (name : string)
| ZeroDivisionError
| KeyError (key : string)
| ValueError (msg : string)
| TypeError (msg : string)
| External (tag : string).

#[local] Set Warnings "-register-all".

(** Symbolic tensors and scalars: a collated batch field, a value moved to the
    compute device, the result of a numeric routine, a component of a tuple
    result, or a Python number. *)
Inductive sym : Type :=
| Field (name : string) (rows : list nat)
| ToDevice (t : sym)
| Apply (f : string) (args : list sym)
| Proj (k : nat) (t : sym)
| Num (n : Z).

(** An [nn.Module] object: its train/eval flag, the identity of the parameter
    values it holds, and the optimizers its parameters were handed to. *)
Record module_st : Type := ModuleSt {
  training : bool;
  params : string;
  on_device : bool;
  registered : list nat
}.

(** The external calls of the script, by call site. *)
Inductive site : Type :=
| GetSaveDir | GetLogger | MkSummaryWriter | GetAvailableDevices | SetSeeds
| TorchFromJson | MkBiDAF | MkDataParallel | LoadModel | ModelToDevice
| MkParaphraser | MkTrainDataset | MkTrainLoader | MkDevDataset | MkDevLoader
| LoadIdx2Word | TensorToDevice | ParaphraserForward | NonZero
| OpenEvalFile | JsonLoad | ModelForward | NllLoss | Discretize
| ConvertTokens | EvalDicts | TbxAddScalar | Visualize.

(** What a run does, in order.  [Called] and [Failed] are the external calls
    that returned or raised; [Enter] marks the entry into a function of this
    file and [Exit] the call of [exit]; the others are the actions on
    modules, tensors and the console that the properties below speak of. *)
Inductive event : Type :=
| Log (msg : string)
| Called (s : site)
| Failed (s : site) (e : exn)
| Built (what : string) (hidden_size : Z)
| Loaded (path : string)
| SetMode (m : nat) (train : bool)
| EpochStart (epoch : Z)
| Forward (m : nat) (args : list sym) (train grad : bool)
| Printed (s : string)
| Loss (l : sym)
| Backward (l : sym)
| ClipGradNorm (m : nat)
| Method (obj : nat) (meth : string)
| Enter (fn : string)
| Exit (code : Z).

(** The mutable world: the trace, autograd's global switch and the heap of
    modules. *)
Record world : Type := World {
  trace : list event;
  grad_enabled : bool;
  heap : gmap nat module_st
}.

Definition initial_world : world :=
  {| trace := []; grad_enabled := true; heap := ∅ |}.

(** ** The monad of the script: state, exceptions, and fuel for [while] *)

Inductive outcome (A : Type) : Type :=
| Ok (a : A)
| Raise (e : exn)
| OutOfFuel.
Arguments Ok {A} a.
Arguments Raise {A} e.
Arguments OutOfFuel {A}.

Definition M (A : Type) : Type := world -> outcome A * world.

Definition ret {A} (a : A) : M A := fun w => (Ok a, w).

Definition bind {A B} (m : M A) (k : A -> M B) : M B :=
  fun w =>
    match m w with
    | (Ok a, w') => k a w'
    | (Raise e, w') => (Raise e, w')
    | (OutOfFuel, w') => (OutOfFuel, w')
    end.

Definition raise {A} (e : exn) : M A := fun w => (Raise e, w).

Declare Scope py_scope.
Delimit Scope py_scope with py.
Notation "x <- c1 ;; c2" := (bind c1 (fun x => c2))
  (at level 100, c1 at next level, right associativity) : py_scope.
Notation "c1 ;; c2" := (bind c1 (fun _ => c2))
  (at level 100, right associativity) : py_scope.
Open Scope py_scope.

Definition emit (e : event) : M unit :=
  fun w => (Ok tt, {| trace := trace w ++ [e];
                      grad_enabled := grad_enabled w;
                      heap := heap w |}).

Definition put_module (m : nat) (s : module_st) : M unit :=
  fun w => (Ok tt, {| trace := trace w; grad_enabled := grad_enabled w;
                      heap := <[m := s]> (heap w) |}).

Definition alter_module (f : module_st -> module_st) (m : nat) : M unit :=
  fun w => (Ok tt, {| trace := trace w; grad_enabled := grad_enabled w;
                      heap := alter f m (heap w) |}).

(** A [with] block over autograd's switch ([torch.enable_grad()],
    [torch.no_grad()]): the previous setting comes back when the block is
    left, by its end or by an exception; the exception goes on. *)
Definition with_grad {A} (b : bool) (body : M A) : M A :=
  fun w =>
    let prev := grad_enabled w in
    match body {| trace := trace w; grad_enabled := b; heap := heap w |} with
    | (r, w') => (r, {| trace := trace w'; grad_enabled := prev; heap := heap w' |})
    end.

(** [for x in xs: body], where the body may [return] from the enclosing
    function: [Some v] is that return, [None] lets the loop go on.  The loop
    threads the variables the body assigns. *)
Fixpoint for_each {A S R} (xs : list A) (body : A -> S -> M (option R * S)) (s : S)
  : M (option R * S) :=
  match xs with
  | [] => ret (None, s)
  | x :: xs' =>
      r <- body x s ;;
      match r with
      | (Some v, s') => ret (Some v, s')
      | (None, s') => for_each xs' body s'
      end
  end.

Definition out_of_fuel {A} : M A := fun w => (OutOfFuel, w).

(** ** The world outside the script *)

(** Command-line arguments, as far as the script's control flow, arithmetic
    and messages use them.  [load_path] is a string or [None]. *)
Record args : Type := Args {
  batch_size : Z;
  seed : Z;
  hidden_size : Z;
  short_test : bool;
  load_path : option string;
  use_squad_v2 : bool;
  eval_steps : Z;
  num_epochs : Z;
  dev_eval_file : string;
  max_ans_len : Z;
  metric_name : string
}.

(** What the framework and the files hand to the script.  [ext_fail s n] is
    the exception, if any, that the external call at site [s] raises when the
    trace has length [n]; [rnd n] is the random source a shuffling loader
    draws from when its iteration starts at trace length [n]. *)
Record env : Type := Env {
  ext_fail : site -> nat -> option exn;
  available_gpus : list Z;
  train_records : list nat;
  dev_records : list nat;
  rnd : nat -> nat -> nat;
  idx2word : gmap string string;
  checkpoint_params : string -> string;
  tensor_rows : sym -> Z;
  paraphrase_tokens : list sym -> list (list Z);
  convert_tokens : list sym -> gmap string string;
  eval_dicts : gmap string string -> bool -> gmap string sym
}.

(** An external call: it raises what the framework raises there, or returns. *)
Definition fail_at {A} (s : site) (e : exn) : M A :=
  emit (Failed s e) ;; raise e.

Definition ext (E : env) (s : site) : M unit :=
  fun w =>
    match ext_fail E s (length (trace w)) with
    | Some e => fail_at s e w
    | None => emit (Called s) w
    end.

(** ** Python's own semantics, where the script leans on it *)

(** Truth value of [args.load_path]: [None] and the empty string are false. *)
Definition truthy (p : option string) : bool :=
  match p with
  | Some s => negb (String.eqb s "")
  | None => false
  end.

(** [a // b] *)
Definition floordiv (a b : Z) : M Z :=
  if b =? 0 then raise ZeroDivisionError else ret (a / b).

(** The module namespace of [train_para.py]: the names its imports and its two
    [def]s bind, in order.  [main] assigns none of the names it reads from
    here, so each such read is a global lookup made when the line runs. *)
Definition module_globals : list string :=
  ["np"; "random"; "torch"; "nn"; "F"; "optim"; "sched"; "data"; "util";
   "get_train_args"; "OrderedDict"; "dumps"; "BiDAF"; "SummaryWriter"; "tqdm";
   "json_load"; "collate_fn_para"; "SQuAD_paraphrase"; "Paraphraser"; "pp";
   "load"; "main"; "evaluate"].

Definition builtins : list string :=
  ["exit"; "max"; "len"; "vars"; "enumerate"; "str"; "open"].

Fixpoint index_of (x : string) (l : list string) (i : nat) : option nat :=
  match l with
  | [] => None
  | y :: l' => if String.eqb x y then Some i else index_of x l' (S i)
  end.

(** Reading a name that the function does not assign: the module namespace,
    then the builtins, else [NameError].  Objects found this way get the
    identities 1000, 1001, ... *)
Definition load_name (x : string) : M nat :=
  match index_of x (module_globals ++ builtins) 1000 with
  | Some o => ret o
  | None => raise (NameError x)
  end.

(** [d[k]] on a [dict] *)
Definition subscript {V} (d : gmap string V) (k : string) : M V :=
  match d !! k with
  | Some v => ret v
  | None => raise (KeyError k)
  end.

(** [OrderedDict]: keys in first-insertion order; setting a key that is
    present replaces its value in place. *)
Fixpoint od_set {V} (k : string) (v : V) (d : list (string * V)) : list (string * V) :=
  match d with
  | [] => [(k, v)]
  | (k', v') :: d' =>
      if String.eqb k k' then (k, v) :: d' else (k', v') :: od_set k v d'
  end.

Definition OrderedDict {V} (items : list (string * V)) : list (string * V) :=
  fold_left (fun d kv => od_set (fst kv) (snd kv) d) items [].

Fixpoint od_get {V} (d : list (string * V)) (k : string) : M V :=
  match d with
  | [] => raise (KeyError k)
  | (k', v) :: d' => if String.eqb k k' then ret v else od_get d' k
  end.

Definition keys {V} (d : list (string * V)) : list string := map fst d.

(** Unpacking a tuple into a fixed number of names. *)
Definition unpack_error (expected got : nat) : exn :=
  if (got <? expected)%nat
  then ValueError ("not enough values to unpack (expected " +:+ pretty expected
                   +:+ ", got " +:+ pretty got +:+ ")")
  else ValueError ("too many values to unpack (expected " +:+ pretty expected +:+ ")").

(** ** Datasets and loaders *)

(** [torch.utils.data.DataLoader]: the dataset (its records, by number), the
    batch size, whether each pass draws a fresh order, and the collate
    function that turns a chunk of records into the tuple the loop unpacks. *)
Record loader : Type := Loader {
  dataset : list nat;
  per_batch : nat;
  shuffle : bool;
  collate_fn : list nat -> list sym
}.

Fixpoint insert_at {A} (i : nat) (x : A) (l : list A) : list A :=
  match i, l with
  | O, _ => x :: l
  | S i', y :: l' => y :: insert_at i' x l'
  | S _, [] => [x]
  end.

(** A random order of [l], driven by the random source [r]. *)
Fixpoint shuffled {A} (r : nat -> nat) (l : list A) : list A :=
  match l with
  | [] => []
  | x :: l' => insert_at (r (length l') mod S (length l'))%nat x (shuffled r l')
  end.

(** Consecutive chunks of [n] records; the last one may be shorter
    ([drop_last] is left at its default). *)
Fixpoint chunks_from {A} (n : nat) (cur : list A) (l : list A) : list (list A) :=
  match l with
  | [] => match cur with [] => [] | _ => [cur] end
  | x :: l' =>
      let cur' := (cur ++ [x])%list in
      if (length cur' =? n)%nat then cur' :: chunks_from n [] l'
      else chunks_from n cur' l'
  end.

(** [data.DataLoader(dataset, batch_size=..., shuffle=..., collate_fn=...)].
    The framework's constructor first builds the sampler: with [shuffle=True]
    a [RandomSampler], which refuses a dataset without records.  It then
    builds the [BatchSampler], which refuses a batch size that is not
    positive. *)
Definition no_samples_message : string :=
  "num_samples should be a positive integer value, but got num_samples=0".

Definition batch_size_message (bs : Z) : string :=
  "batch_size should be a positive integer value, but got batch_size="
  +:+ pretty bs.

Definition DataLoader (E : env) (s : site) (ds : list nat) (bs : Z) (sh : bool)
    (collate : list nat -> list sym) : M loader :=
  if sh && (length ds =? 0)%nat
  then fail_at s (ValueError no_samples_message)
  else if bs <=? 0
  then fail_at s (ValueError (batch_size_message bs))
  else ext E s ;; ret (Loader ds (Z.to_nat bs) sh collate).

(** One pass over a loader: the batches it yields, in order. *)
Definition iter_loader (E : env) (ld : loader) : M (list (list sym)) :=
  fun w =>
    let order := if shuffle ld
                 then shuffled (rnd E (length (trace w))) (dataset ld)
                 else dataset ld in
    (Ok (map (collate_fn ld) (chunks_from (per_batch ld) [] order)), w).

(** Modelled from the spec: [util.collate_fn_para] is imported, not defined
    here.  The batch collator "groups fields into tensors"; the fields are the
    ten names the training loop unpacks a batch into. *)
Definition para_fields : list string :=
  ["cw_idxs"; "cc_idxs"; "qw_idxs"; "qc_idxs"; "y1"; "y2";
   "cphr_idxs"; "qphr_idxs"; "qphr_types"; "ids"].

Definition collate_fn_para (rows : list nat) : list sym :=
  map (fun f => Field f rows) para_fields.

(** [t.size(0)] *)
Fixpoint size0 (E : env) (t : sym) : Z :=
  match t with
  | Field _ rows => Z.of_nat (length rows)
  | ToDevice t' => size0 E t'
  | _ => tensor_rows E t
  end.

(** A Python boolean passed on to a numeric routine. *)
Definition Flag (b : bool) : sym := Num (if b then 1 else 0).

(** [t.to(device)] *)
Definition to_device (E : env) (t : sym) : M sym :=
  ext E TensorToDevice ;; ret (ToDevice t).

(** ** Modules *)

Definition set_training (b : bool) (s : module_st) : module_st :=
  {| training := b; params := params s; on_device := on_device s;
     registered := registered s |}.

Definition set_params (p : string) (s : module_st) : module_st :=
  {| training := training s; params := p; on_device := on_device s;
     registered := registered s |}.

Definition set_on_device (s : module_st) : module_st :=
  {| training := training s; params := params s; on_device := true;
     registered := registered s |}.

(** A freshly built module is in training mode and registered nowhere. *)
Definition fresh_module (what : string) : module_st :=
  {| training := true; params := what +:+ ".init"; on_device := false;
     registered := [] |}.

(** [m.eval()] and [m.train()] *)
Definition set_mode (m : nat) (b : bool) : M unit :=
  alter_module (set_training b) m ;; emit (SetMode m b).

Definition is_training (w : world) (m : nat) : bool :=
  match heap w !! m with
  | Some s => training s
  | None => true
  end.

(** [m(args...)]: the call is made under the module's current mode and
    autograd's current switch. *)
Definition note_forward (m : nat) (xs : list sym) : M unit :=
  fun w => emit (Forward m xs (is_training w m) (grad_enabled w)) w.

Definition forward (E : env) (s : site) (m : nat) (xs : list sym) : M sym :=
  note_forward m xs ;;
  ext E s ;;
  ret (Apply "forward" (Num (Z.of_nat m) :: xs)).

(** [obj.meth(...)] on an object found by name. *)
Definition method (obj : nat) (meth : string) : M unit :=
  emit (Method obj meth).

(** [optimizer.step()]: every module whose parameters were handed to this
    optimizer gets new parameter values. *)
Definition step_params (o : nat) (s : module_st) : module_st :=
  if bool_decide (o ∈ registered s) then set_params (params s +:+ "'") s else s.

Definition optimizer_step (o : nat) : M unit :=
  emit (Method o "step") ;;
  (fun w => (Ok tt, {| trace := trace w; grad_enabled := grad_enabled w;
                       heap := step_params o <$> heap w |})).

(** ** [evaluate] *)

(** [F.nll_loss(log_p1, y1) + F.nll_loss(log_p2, y2)] *)
Definition nll_loss_sum (E : env) (log_p1 y1 log_p2 y2 : sym) : M sym :=
  ext E NllLoss ;;
  ext E NllLoss ;;
  let loss := Apply "add" [Apply "nll_loss" [log_p1; y1];
                           Apply "nll_loss" [log_p2; y2]] in
  emit (Loss loss) ;;
  ret loss.

(** The loop variables of [evaluate]: the updates given to [nll_meter] and
    [pred_dict]. *)
Definition eval_state : Type := list sym * gmap string string.

(** Body of the [for] over [data_loader] (lines 213-238). *)
Definition eval_batch (E : env) (model : nat) (max_len : Z) (use_squad_v2 : bool)
    (batch : list sym) (st : eval_state) : M (option Empty_set * eval_state) :=
  let nll_meter := fst st in
  let pred_dict := snd st in
  match batch with
  | [cw_idxs; cc_idxs; qw_idxs; qc_idxs; y1; y2; ids] =>
      cw_idxs <- to_device E cw_idxs ;;
      qw_idxs <- to_device E qw_idxs ;;
      let batch_size := size0 E cw_idxs in
      out <- forward E ModelForward model [cw_idxs; qw_idxs] ;;
      let log_p1 := Proj 0 out in
      let log_p2 := Proj 1 out in
      y1 <- to_device E y1 ;;
      y2 <- to_device E y2 ;;
      loss <- nll_loss_sum E log_p1 y1 log_p2 y2 ;;
      let nll_meter :=
        (nll_meter ++ [Apply "update" [Apply "item" [loss]; Num batch_size]])%list in
      let p1 := Apply "exp" [log_p1] in
      let p2 := Apply "exp" [log_p2] in
      ext E Discretize ;;
      let spans := Apply "discretize" [p1; p2; Num max_len; Flag use_squad_v2] in
      ext E ConvertTokens ;;
      let preds := convert_tokens E [ids; Proj 0 spans; Proj 1 spans;
                                     Flag use_squad_v2] in
      ret (None, (nll_meter, preds ∪ pred_dict))
  | _ => raise (unpack_error 7 (length batch))
  end.

(** [evaluate(model, data_loader, device, eval_file, max_len, use_squad_v2)];
    the device is implicit in [ToDevice].  The result is the pair
    [(results, pred_dict)]. *)
Definition evaluate (E : env) (model : nat) (data_loader : loader)
    (eval_file : string) (max_len : Z) (use_squad_v2 : bool)
  : M (list (string * sym) * gmap string string) :=
  emit (Enter "evaluate") ;;
  let nll_meter : list sym := [] in
  set_mode model false ;;
  let pred_dict : gmap string string := ∅ in
  ext E OpenEvalFile ;;
  ext E JsonLoad ;;
  r <- with_grad false
         (batches <- iter_loader E data_loader ;;
          for_each batches (eval_batch E model max_len use_squad_v2)
                   (nll_meter, pred_dict)) ;;
  let nll_meter := fst (snd r) in
  let pred_dict := snd (snd r) in
  set_mode model true ;;
  ext E EvalDicts ;;
  let results := eval_dicts E pred_dict use_squad_v2 in
  f1 <- subscript results "F1" ;;
  em <- subscript results "EM" ;;
  let results_list := [("NLL", Apply "avg" nll_meter); ("F1", f1); ("EM", em)] in
  results_list <- (if use_squad_v2
                   then avna <- subscript results "AvNA" ;;
                        ret (results_list ++ [("AvNA", avna)])%list
                   else ret results_list) ;;
  let results := OrderedDict results_list in
  ret (results, pred_dict).

(** ** [main] *)

Definition bidaf_model : nat := 0%nat.
Definition paraphaser_model : nat := 1%nat.

(** The loop variables of the training loop: [step] and [steps_till_eval]. *)
Definition train_state : Type := Z * Z.

Fixpoint lookup_words (d : gmap string string) (ws : list Z) : M (list string) :=
  match ws with
  | [] => ret []
  | w :: ws' =>
      s <- subscript d (pretty w) ;;
      rest <- lookup_words d ws' ;;
      ret (s :: rest)
  end.

(** [p[p.nonzero()].squeeze()], line 140: indexing with the [k x 1] tensor of
    the positions of the non-zero tokens gives a [k x 1] tensor, and
    [squeeze()] drops every dimension of size 1.  So one non-zero token leaves
    a tensor without dimensions, any other number of them a vector. *)
Inductive squeezed : Type :=
| Scalar (x : Z)
| Vector (xs : list Z).

Definition squeeze (xs : list Z) : squeezed :=
  match xs with
  | [x] => Scalar x
  | _ => Vector xs
  end.

(** [for w in t]: a tensor without dimensions cannot be iterated. *)
Definition iter_tensor (t : squeezed) : M (list Z) :=
  match t with
  | Scalar _ => raise (TypeError "iteration over a 0-d tensor")
  | Vector xs => ret xs
  end.

(** Lines 139-143: each row of the paraphraser's output is cut down to its
    non-zero tokens, looked up word by word and printed. *)
Fixpoint print_paraphrased (E : env) (paraphrased : list (list Z)) : M unit :=
  match paraphrased with
  | [] => ret tt
  | p :: rest =>
      ext E NonZero ;;
      let non_zeros := squeeze (List.filter (fun w => negb (w =? 0)) p) in
      ws <- iter_tensor non_zeros ;;
      sentence_as_list <- lookup_words (idx2word E) ws ;;
      emit (Printed (String.concat " " sentence_as_list)) ;;
      print_paraphrased E rest
  end.

Fixpoint add_scalars (E : env) (ks : list string) : M unit :=
  match ks with
  | [] => ret tt
  | _ :: ks' => ext E TbxAddScalar ;; add_scalars E ks'
  end.

(** Lines 179-201: evaluate and save a checkpoint. *)
Definition eval_and_checkpoint (E : env) (a : args) (dev_loader : loader)
    (step : Z) : M unit :=
  emit (Log ("Evaluating at step " +:+ pretty step +:+ "...")) ;;
  ema <- load_name "ema" ;;
  model <- load_name "model" ;;
  method ema "assign" ;;
  _ <- load_name "evaluate" ;;
  model <- load_name "model" ;;
  r <- evaluate E model dev_loader (dev_eval_file a) (max_ans_len a)
                (use_squad_v2 a) ;;
  let results := fst r in
  let pred_dict := snd r in
  saver <- load_name "saver" ;;
  model <- load_name "model" ;;
  _ <- od_get results (metric_name a) ;;
  method saver "save" ;;
  ema <- load_name "ema" ;;
  model <- load_name "model" ;;
  method ema "resume" ;;
  emit (Log ("Dev " +:+ String.concat ", " (keys results))) ;;
  emit (Log "Visualizing in TensorBoard...") ;;
  add_scalars E (keys results) ;;
  ext E Visualize.

(** Lines 149-186 of the loop body: the update of the parameters, then the
    periodic evaluation. *)
Definition train_step (E : env) (a : args) (dev_loader : loader)
    (cw_idxs qw_idxs y1 y2 : sym) (batch_size : Z) (st : train_state)
  : M (option unit * train_state) :=
  let step := fst st in
  let steps_till_eval := snd st in
  optimizer <- load_name "optimizer" ;;
  method optimizer "zero_grad" ;;
  model <- load_name "model" ;;
  out <- forward E ModelForward model [cw_idxs; qw_idxs] ;;
  let log_p1 := Proj 0 out in
  let log_p2 := Proj 1 out in
  y1 <- to_device E y1 ;;
  y2 <- to_device E y2 ;;
  loss <- nll_loss_sum E log_p1 y1 log_p2 y2 ;;
  emit (Backward loss) ;;
  _ <- load_name "nn" ;;
  model <- load_name "model" ;;
  emit (ClipGradNorm model) ;;
  optimizer <- load_name "optimizer" ;;
  optimizer_step optimizer ;;
  scheduler <- load_name "scheduler" ;;
  _ <- floordiv step batch_size ;;
  method scheduler "step" ;;
  ema <- load_name "ema" ;;
  model <- load_name "model" ;;
  _ <- floordiv step batch_size ;;
  method ema "__call__" ;;
  let step := step + batch_size in
  ext E TbxAddScalar ;;
  optimizer <- load_name "optimizer" ;;
  ext E TbxAddScalar ;;
  let steps_till_eval := steps_till_eval - batch_size in
  if steps_till_eval <=? 0 then
    let steps_till_eval := eval_steps a in
    eval_and_checkpoint E a dev_loader step ;;
    ret (None, (step, steps_till_eval))
  else ret (None, (step, steps_till_eval)).

(** Body of the [for] over [train_loader] (lines 118-201). *)
Definition train_batch (E : env) (a : args) (dev_loader : loader) (epoch : Z)
    (batch : list sym) (st : train_state) : M (option unit * train_state) :=
  match batch with
  | [cw_idxs; cc_idxs; qw_idxs; qc_idxs; y1; y2; cphr_idxs; qphr_idxs;
     qphr_types; ids] =>
      cw_idxs <- to_device E cw_idxs ;;
      qw_idxs <- to_device E qw_idxs ;;
      cphr_idxs <- to_device E cphr_idxs ;;
      qphr_idxs <- to_device E qphr_idxs ;;
      qphr_types <- to_device E qphr_types ;;
      let batch_size := size0 E cw_idxs in
      _ <- forward E ParaphraserForward paraphaser_model
             [qphr_idxs; qphr_types; cphr_idxs] ;;
      let paraphrased := paraphrase_tokens E [qphr_idxs; qphr_types; cphr_idxs] in
      print_paraphrased E paraphrased ;;
      if short_test a then ret (Some tt, st)
      else train_step E a dev_loader cw_idxs qw_idxs y1 y2 batch_size st
  | _ => raise (unpack_error 10 (length batch))
  end.

(** Lines 114-201: one pass of the [while], after [epoch += 1]. *)
Definition train_epoch (E : env) (a : args) (train_loader dev_loader : loader)
    (epoch : Z) (st : train_state) : M (option unit * train_state) :=
  emit (Log ("Starting epoch " +:+ pretty epoch +:+ "...")) ;;
  with_grad true
    (batches <- iter_loader E train_loader ;;
     for_each batches (train_batch E a dev_loader epoch) st).

(** [while epoch != num_epochs: epoch += 1; body].  A [return] inside the body
    ends the function. *)
Fixpoint epoch_loop {S} (body : Z -> S -> M (option unit * S)) (num_epochs : Z)
    (fuel : nat) (epoch : Z) (s : S) : M unit :=
  if epoch =? num_epochs then ret tt
  else
    match fuel with
    | O => out_of_fuel
    | Datatypes.S fuel' =>
        let epoch := epoch + 1 in
        emit (EpochStart epoch) ;;
        r <- body epoch s ;;
        match r with
        | (Some _, _) => ret tt
        | (None, s') => epoch_loop body num_epochs fuel' epoch s'
        end
    end.

Definition no_bidaf_message : string :=
  "Trying to trian paraphraser withou bidaf model. First train BiDAF and then specify the load path. Exiting".

(** [main(args)], lines 30-201.  [fuel] bounds the passes of the [while]. *)
Definition main (E : env) (a : args) (fuel : nat) : M unit :=
  (* 32-37: logging and devices *)
  ext E GetSaveDir ;;
  ext E GetLogger ;;
  ext E MkSummaryWriter ;;
  ext E GetAvailableDevices ;;
  let gpu_ids := available_gpus E in
  emit (Log "Args") ;;
  let batch_size := batch_size a * Z.max 1 (Z.of_nat (length gpu_ids)) in
  (* 40-44: random seed *)
  emit (Log ("Using random seed " +:+ pretty (seed a) +:+ "...")) ;;
  ext E SetSeeds ;;
  (* 47-48: embeddings *)
  emit (Log "Loading embeddings...") ;;
  ext E TorchFromJson ;;
  (* 51-55: the BiDAF model, built with the configured hidden size *)
  emit (Log "Building BiDAF model (should be pretrained)") ;;
  ext E MkBiDAF ;;
  put_module bidaf_model (fresh_module "BiDAF") ;;
  emit (Built "BiDAF" (hidden_size a)) ;;
  ext E MkDataParallel ;;
  (* 57-67: short test, or exit, or load the checkpoint *)
  hidden_size <-
    (if short_test a then ret 5
     else if negb (truthy (load_path a)) then
       emit (Log no_bidaf_message) ;;
       emit (Exit 1) ;;
       raise (SystemExit 1)
     else
       let path := default "" (load_path a) in
       emit (Log ("Loading checkpoint from " +:+ path +:+ "...")) ;;
       ext E LoadModel ;;
       alter_module (set_params (checkpoint_params E path)) bidaf_model ;;
       emit (Loaded path) ;;
       ext E ModelToDevice ;;
       alter_module set_on_device bidaf_model ;;
       set_mode bidaf_model false ;;
       ret (hidden_size a)) ;;
  (* 70-72: the Paraphraser *)
  ext E MkParaphraser ;;
  put_module paraphaser_model (fresh_module "Paraphraser") ;;
  emit (Built "Paraphraser" hidden_size) ;;
  (* 76-89: datasets and loaders *)
  emit (Log "Building dataset...") ;;
  ext E MkTrainDataset ;;
  let train_dataset := train_records E in
  train_loader <- DataLoader E MkTrainLoader train_dataset batch_size true
                    collate_fn_para ;;
  ext E MkDevDataset ;;
  let dev_dataset := dev_records E in
  dev_loader <- DataLoader E MkDevLoader dev_dataset batch_size false
                  collate_fn_para ;;
  (* 92: the index-to-word table; 95-105 are comments *)
  ext E LoadIdx2Word ;;
  (* 107-110 *)
  let step := 0 in
  emit (Log "Training...") ;;
  let steps_till_eval := eval_steps a in
  epoch <- floordiv step (Z.of_nat (length train_dataset)) ;;
  (* 113-201 *)
  epoch_loop (train_epoch E a train_loader dev_loader) (num_epochs a) fuel epoch
    (step, steps_till_eval).

(** ** Where a value comes from *)

(** [derived_from m t]: the symbolic value [t] contains the output of a
    forward pass of the module at address [m]. *)
Fixpoint derived_from (m : nat) (t : sym) : bool :=
  match t with
  | Field _ _ => false
  | Num _ => false
  | ToDevice t' => derived_from m t'
  | Proj _ t' => derived_from m t'
  | Apply f xs =>
      (String.eqb f "forward" &&
       match xs with
       | Num k :: _ => k =? Z.of_nat m
       | _ => false
       end)
      || existsb (derived_from m) xs
  end.
(** * Reasoning about runs *)

(** ** Weakest preconditions over the monad

    [wp m Q X w]: running [m] from [w] ends in a value and world that satisfy
    [Q], or in an exception ([Some e]) or exhausted fuel ([None]) and a world
    that satisfy [X]. *)
Definition wp {A} (m : M A) (Q : A -> world -> Prop)
    (X : option exn -> world -> Prop) (w : world) : Prop :=
  match m w with
  | (Ok a, w') => Q a w'
  | (Raise e, w') => X (Some e) w'
  | (OutOfFuel, w') => X None w'
  end.

Definition snoc (w : world) (e : event) : world :=
  {| trace := trace w ++ [e]; grad_enabled := grad_enabled w; heap := heap w |}.

(** ** What a run of [main] can do *)

(** The external calls [main] can reach, by mode. *)
Definition main_site (a : args) (s : site) : Prop :=
  match s with
  | LoadModel | ModelToDevice => short_test a = false
  | OpenEvalFile | JsonLoad | ModelForward | NllLoss | Discretize
  | ConvertTokens | EvalDicts | TbxAddScalar | Visualize => False
  | _ => True
  end.

(** The words of a row of token ids, when every token has one. *)
Fixpoint words_of (d : gmap string string) (ws : list Z) : option (list string) :=
  match ws with
  | [] => Some []
  | w :: ws' =>
      match d !! pretty w, words_of d ws' with
      | Some s, Some l => Some (s :: l)
      | _, _ => None
      end
  end.

(** The sentence printed for a row [p] of the paraphraser's output: none
    when the row has exactly one non-zero token, or a token without a word. *)
Definition decoded (E : env) (p : list Z) : option string :=
  match squeeze (List.filter (fun w => negb (w =? 0)) p) with
  | Scalar _ => None
  | Vector ws =>
      match words_of (idx2word E) ws with
      | Some l => Some (String.concat " " l)
      | None => None
      end
  end.

(** The events of a run of [main], each with what is known when it occurs. *)
Definition allowed (E : env) (a : args) (h : gmap nat module_st) (e : event) : Prop :=
  match e with
  | Log _ | EpochStart _ => True
  | Called s | Failed s _ => main_site a s
  | Printed s => exists xs p, In p (paraphrase_tokens E xs) /\ decoded E p = Some s
  | Built what h =>
      (what = "BiDAF" /\ h = hidden_size a) \/
      (what = "Paraphraser" /\ h = if short_test a then 5 else hidden_size a)
  | Loaded p =>
      short_test a = false /\ load_path a = Some p /\ truthy (load_path a) = true /\
      exists st, h !! bidaf_model = Some st /\ params st = checkpoint_params E p
  | SetMode m b => short_test a = false /\ m = bidaf_model /\ b = false
  | Forward m xs _ _ =>
      m = paraphaser_model /\
      exists rows, xs = [ToDevice (Field "qphr_idxs" rows);
                         ToDevice (Field "qphr_types" rows);
                         ToDevice (Field "cphr_idxs" rows)]
  | Exit c => c = 1 /\ short_test a = false /\ truthy (load_path a) = false
  | Loss _ | Backward _ | ClipGradNorm _ | Method _ _ | Enter _ => False
  end.

Definition is_failed (e : event) : Prop :=
  match e with Failed _ _ => True | _ => False end.

(** No call has failed so far. *)
Definition clean (t : list event) : Prop := Forall (fun e => ~ is_failed e) t.

(** Exceptions the script raises itself: [exit(1)] and the interpreter's. *)
Definition own_error (e : exn) : Prop :=
  match e with
  | SystemExit c => c = 1
  | NameError _ | ZeroDivisionError | KeyError _ | ValueError _
  | TypeError _ => True
  | External _ => False
  end.

(** How a run ends in exception [e]: a call failed with [e] as the last thing
    that happened, or nothing failed and the script raised [e] itself. *)
Definition raised_here (e : exn) (t : list event) : Prop :=
  (exists s t', t = (t' ++ [Failed s e])%list /\ clean t') \/
  (clean t /\ own_error e).

Definition bidaf_unregistered (h : gmap nat module_st) : Prop :=
  forall st, h !! bidaf_model = Some st -> registered st = [].

Definition is_forward (e : event) : bool :=
  match e with Forward _ _ _ _ => true | _ => false end.

(** Number of batches put through a model. *)
Definition forwards (t : list event) : nat := length (List.filter is_forward t).

Definition is_epoch_start (e : event) : bool :=
  match e with EpochStart _ => true | _ => false end.

(** Number of passes of the [while] that have begun. *)
Definition epochs_started (t : list event) : nat :=
  length (List.filter is_epoch_start t).

Definition main_inv (E : env) (a : args) (n : nat) (w : world) : Prop :=
  Forall (allowed E a (heap w)) (trace w) /\
  bidaf_unregistered (heap w) /\
  forwards (trace w) = n.

(** Between two batches: nothing failed, no batch processed yet. *)
Definition running (E : env) (a : args) (w : world) : Prop :=
  main_inv E a 0 w /\ clean (trace w).

Definition main_done (E : env) (a : args) (w : world) : Prop :=
  (exists n, (n <= 1)%nat /\ main_inv E a n w) /\ clean (trace w).

Definition main_post (E : env) (a : args) (x : option exn) (w : world) : Prop :=
  match x with
  | Some e => (exists n, (n <= 1)%nat /\ main_inv E a n w) /\ raised_here e (trace w)
  | None => running E a w
  end.

(** ** The loop over epochs in [main] *)

(** A pass of the [while] is the first one, and begins only when the
    configured count is not 0. *)
Definition epoch_event (a : args) (e : event) : Prop :=
  match e with
  | EpochStart k => k = 1 /\ num_epochs a <> 0
  | _ => True
  end.

(** The exceptions the script of [main] raises itself: [exit(1)], the unbound
    [optimizer], a token without a word, a row squeezed to a single token. *)
Definition script_error (e : exn) : Prop :=
  match e with
  | SystemExit c => c = 1
  | NameError n => n = "optimizer"
  | KeyError _ | TypeError _ => True
  | ZeroDivisionError | ValueError _ | External _ => False
  end.

(** The last thing that happened is a framework call failing with [e]. *)
Definition failed_with (e : exn) (t : list event) : Prop :=
  exists s t', t = (t' ++ [Failed s e])%list.

(** [main] has returned: no pass began and the count is 0, or one pass began
    and the run is a short test. *)
Definition loop_done (a : args) (w : world) : Prop :=
  Forall (epoch_event a) (trace w) /\
  ((epochs_started (trace w) = 0%nat /\ num_epochs a = 0) \/
   (epochs_started (trace w) = 1%nat /\ short_test a = true)).

(** [main] has ended otherwise: out of fuel only when there was none; in an
    exception that a framework call raised or that is one of the script's
    own. *)
Definition loop_post (a : args) (fuel : nat) (x : option exn) (w : world) : Prop :=
  Forall (epoch_event a) (trace w) /\
  (epochs_started (trace w) <= 1)%nat /\
  match x with
  | None => fuel = 0%nat
  | Some e => failed_with e (trace w) \/ script_error e
  end.

(** ** What a run of [evaluate] can do *)

Definition eval_allowed (model : nat) (e : event) : Prop :=
  match e with
  | Enter fn => fn = "evaluate"
  | SetMode m _ => m = model
  | Forward m _ tr g => m = model /\ tr = false /\ g = false
  | Called _ | Failed _ _ | Loss _ => True
  | _ => False
  end.

(** Inside the loop of [evaluate]: nothing has failed and [model.train()] has
    not been called yet. *)
Definition eval_loop_ok (model : nat) (e : event) : Prop :=
  eval_allowed model e /\ ~ is_failed e /\ e <> SetMode model true.

Definition eval_loop_inv (model : nat) (h0 : gmap nat module_st) (w : world) : Prop :=
  Forall (eval_loop_ok model) (trace w) /\
  heap w = alter (set_training false) model h0 /\
  grad_enabled w = false.

Definition eval_post (model : nat) (h0 : gmap nat module_st) (g : bool)
    (x : option exn) (w : world) : Prop :=
  Forall (eval_allowed model) (trace w) /\
  grad_enabled w = g /\
  match x with
  | None => clean (trace w) /\ heap w = alter (set_training true) model h0
  | Some e =>
      raised_here e (trace w) /\
      ((Forall (fun e => e <> SetMode model true) (trace w) /\
        heap w = alter (set_training false) model h0) \/
       (SetMode model true ∈ trace w /\
        heap w = alter (set_training true) model h0))
  end.

(** An exception that leaves the loop of [evaluate]: the model is still in
    inference mode. *)
Definition eval_raised (model : nat) (h0 : gmap nat module_st)
    (x : option exn) (w : world) : Prop :=
  Forall (eval_allowed model) (trace w) /\
  match x with
  | Some e => raised_here e (trace w)
  | None => False
  end /\
  Forall (fun e => e <> SetMode model true) (trace w) /\
  heap w = alter (set_training false) model h0.

(** ** Sample inputs *)

(** A small world in which every call returns: three training records, one
    held-out record, a two-word vocabulary, a paraphraser that emits two rows. *)
Definition sample_env : env :=
  {| ext_fail := fun _ _ => None;
     available_gpus := [];
     train_records := [0; 1; 2]%nat;
     dev_records := [7]%nat;
     rnd := fun _ i => i;
     idx2word := {[ "3" := "what"; "4" := "is" ]};
     checkpoint_params := fun p => "params of " +:+ p;
     tensor_rows := fun _ => 0;
     paraphrase_tokens := fun _ => [[3; 0; 4]; [0; 0]];
     convert_tokens := fun _ => ∅;
     eval_dicts := fun _ _ => {[ "F1" := Num 1; "EM" := Num 2; "AvNA" := Num 3 ]} |}.

Definition sample_args (short : bool) (path : option string) (epochs : Z) : args :=
  {| batch_size := 2; seed := 224; hidden_size := 100; short_test := short;
     load_path := path; use_squad_v2 := true; eval_steps := 1;
     num_epochs := epochs; dev_eval_file := "dev_eval.json"; max_ans_len := 15;
     metric_name := "F1" |}.

(** A loader whose batches have the seven fields [evaluate] unpacks. *)
Definition squad_fields : list string :=
  ["cw_idxs"; "cc_idxs"; "qw_idxs"; "qc_idxs"; "y1"; "y2"; "ids"].

Definition squad_loader : loader :=
  {| dataset := [0; 1; 2]%nat; per_batch := 2; shuffle := false;
     collate_fn := fun rows => map (fun f => Field f rows) squad_fields |}.

(** The held-out loader as [main] builds it. *)
Definition para_dev_loader : loader :=
  {| dataset := [7]%nat; per_batch := 2; shuffle := false;
     collate_fn := collate_fn_para |}.

(** A heap holding one module, in training mode, at address 5. *)
Definition sample_heap : gmap nat module_st := {[ 5%nat := fresh_module "BiDAF" ]}.

Definition start (h : gmap nat module_st) (g : bool) : world :=
  {| trace := []; grad_enabled := g; heap := h |}.

(** ** Runs in which the framework calls return *)

(** The calls of lines 32-55, up to the check of [load_path]. *)
Definition before_check : list site :=
  [GetSaveDir; GetLogger; MkSummaryWriter; GetAvailableDevices; SetSeeds;
   TorchFromJson; MkBiDAF; MkDataParallel].

(** The calls of lines 32-92, up to the training loop. *)
Definition setup_sites : list site :=
  before_check ++ [LoadModel; ModelToDevice; MkParaphraser; MkTrainDataset;
                   MkTrainLoader; MkDevDataset; MkDevLoader; LoadIdx2Word].

(** The calls of the loop body up to the printing (lines 121-143). *)
Definition batch_sites : list site := [TensorToDevice; ParaphraserForward; NonZero].

Definition returns (E : env) (sites : list site) : Prop :=
  forall s n, In s sites -> ext_fail E s n = None.

(** What lines 32-55 do when every call returns. *)
Definition setup_trace (a : args) : list event :=
  [Called GetSaveDir; Called GetLogger; Called MkSummaryWriter;
   Called GetAvailableDevices; Log "Args";
   Log ("Using random seed " +:+ pretty (seed a) +:+ "...");
   Called SetSeeds; Log "Loading embeddings..."; Called TorchFromJson;
   Log "Building BiDAF model (should be pretrained)";
   Called MkBiDAF; Built "BiDAF" (hidden_size a); Called MkDataParallel].

(** The loaders [main] builds. *)
Definition effective_batch_size (E : env) (a : args) : Z :=
  batch_size a * Z.max 1 (Z.of_nat (length (available_gpus E))).

Definition training_loader (E : env) (a : args) : loader :=
  {| dataset := train_records E;
     per_batch := Z.to_nat (effective_batch_size E a);
     shuffle := true;
     collate_fn := collate_fn_para |}.

Definition held_out_loader (E : env) (a : args) : loader :=
  {| dataset := dev_records E;
     per_batch := Z.to_nat (effective_batch_size E a);
     shuffle := false;
     collate_fn := collate_fn_para |}.

(** The world when the training loop is reached (lines 32-109), every call
    having returned: with [short_test] nothing is loaded; otherwise the
    checkpoint is loaded into the BiDAF module, which is moved to the device
    and put in inference mode. *)
Definition load_trace (a : args) : list event :=
  if short_test a then []
  else [Log ("Loading checkpoint from " +:+ default "" (load_path a) +:+ "...");
        Called LoadModel; Loaded (default "" (load_path a));
        Called ModelToDevice; SetMode bidaf_model false].

Definition data_trace (a : args) : list event :=
  [Called MkParaphraser;
   Built "Paraphraser" (if short_test a then 5 else hidden_size a);
   Log "Building dataset..."; Called MkTrainDataset; Called MkTrainLoader;
   Called MkDevDataset; Called MkDevLoader; Called LoadIdx2Word;
   Log "Training..."].

Definition setup_heap (E : env) (a : args) : gmap nat module_st :=
  <[paraphaser_model := fresh_module "Paraphraser"]>
    (if short_test a then <[bidaf_model := fresh_module "BiDAF"]> ∅
     else alter (set_training false) bidaf_model
            (alter set_on_device bidaf_model
               (alter (set_params (checkpoint_params E (default "" (load_path a))))
                  bidaf_model (<[bidaf_model := fresh_module "BiDAF"]> ∅)))).

Definition setup_world (E : env) (a : args) : world :=
  {| trace := setup_trace a ++ load_trace a ++ data_trace a;
     grad_enabled := true;
     heap := setup_heap E a |}.

(** The inputs of the paraphraser for the batch made of [rows]. *)
Definition para_inputs (rows : list nat) : list sym :=
  [ToDevice (Field "qphr_idxs" rows); ToDevice (Field "qphr_types" rows);
   ToDevice (Field "cphr_idxs" rows)].

(** What the printing loop does for the rows [ps] when every row decodes. *)
Definition print_events (E : env) (ps : list (list Z)) : list event :=
  flat_map (fun p => [Called NonZero; Printed (default "" (decoded E p))]) ps.

(** What the loop body does, up to the printing, for the batch [rows]. *)
Definition batch_trace (E : env) (rows : list nat) : list event :=
  [Called TensorToDevice; Called TensorToDevice; Called TensorToDevice;
   Called TensorToDevice; Called TensorToDevice;
   Forward paraphaser_model (para_inputs rows) true true;
   Called ParaphraserForward]
  ++ print_events E (paraphrase_tokens E (para_inputs rows)).

(** Every row the paraphraser can emit decodes: none has exactly one non-zero
    token, and every non-zero token has a word. *)
Definition all_decodable (E : env) : Prop :=
  forall xs p, In p (paraphrase_tokens E xs) -> decoded E p <> None.

(** Events of an update of parameters: a loss, a backward pass, gradient
    clipping, a call on an optimizer, scheduler, averager or saver. *)
Definition is_update (e : event) : bool :=
  match e with
  | Loss _ | Backward _ | ClipGradNorm _ | Method _ _ => true
  | _ => false
  end.

Definition is_enter (e : event) : bool :=
  match e with Enter _ => true | _ => false end.


(** The sample world with no training record. *)
Definition empty_env : env :=
  {| ext_fail := ext_fail sample_env;
     available_gpus := available_gpus sample_env;
     train_records := [];
     dev_records := dev_records sample_env;
     rnd := rnd sample_env;
     idx2word := idx2word sample_env;
     checkpoint_params := checkpoint_params sample_env;
     tensor_rows := tensor_rows sample_env;
     paraphrase_tokens := paraphrase_tokens sample_env;
     convert_tokens := convert_tokens sample_env;
     eval_dicts := eval_dicts sample_env |}.

(** ** Further properties: what [evaluate] does batch by batch *)

(** The external calls of [evaluate]. *)
Definition eval_sites : list site :=
  [OpenEvalFile; JsonLoad; TensorToDevice; ModelForward; NllLoss; Discretize;
   ConvertTokens; EvalDicts].

(** The batches a pass over [ld] yields when it starts at trace length [n]. *)
Definition loader_batches (E : env) (ld : loader) (n : nat) : list (list sym) :=
  map (collate_fn ld)
      (chunks_from (per_batch ld) []
         (if shuffle ld then shuffled (rnd E n) (dataset ld) else dataset ld)).

(** The loss of one batch (lines 220-222). *)
Definition batch_loss (model : nat) (cw qw y1 y2 : sym) : sym :=
  let out := Apply "forward" [Num (Z.of_nat model); ToDevice cw; ToDevice qw] in
  Apply "add" [Apply "nll_loss" [Proj 0 out; ToDevice y1];
               Apply "nll_loss" [Proj 1 out; ToDevice y2]].

(** The predictions of one batch (lines 226-237). *)
Definition batch_preds (E : env) (model : nat) (max_len : Z) (v2 : bool)
    (cw qw ids : sym) : gmap string string :=
  let out := Apply "forward" [Num (Z.of_nat model); ToDevice cw; ToDevice qw] in
  let spans := Apply "discretize" [Apply "exp" [Proj 0 out];
                                   Apply "exp" [Proj 1 out];
                                   Num max_len; Flag v2] in
  convert_tokens E [ids; Proj 0 spans; Proj 1 spans; Flag v2].

(** What the loop body of [evaluate] does for a seven-field batch when its
    calls return. *)
Definition eval_batch_trace (model : nat) (batch : list sym) : list event :=
  match batch with
  | [cw; _; qw; _; y1; y2; _] =>
      [Called TensorToDevice; Called TensorToDevice;
       Forward model [ToDevice cw; ToDevice qw] false false;
       Called ModelForward; Called TensorToDevice; Called TensorToDevice;
       Called NllLoss; Called NllLoss; Loss (batch_loss model cw qw y1 y2);
       Called Discretize; Called ConvertTokens]
  | _ => []
  end.

Definition eval_batch_state (E : env) (model : nat) (max_len : Z) (v2 : bool)
    (st : eval_state) (batch : list sym) : eval_state :=
  match batch with
  | [cw; _; qw; _; y1; y2; ids] =>
      ((fst st ++ [Apply "update" [Apply "item" [batch_loss model cw qw y1 y2];
                                   Num (size0 E (ToDevice cw))]])%list,
       batch_preds E model max_len v2 cw qw ids ∪ snd st)
  | _ => st
  end.

(** The loop variables after the batches [bs]. *)
Definition eval_states (E : env) (model : nat) (max_len : Z) (v2 : bool)
    (bs : list (list sym)) (st : eval_state) : eval_state :=
  fold_left (eval_batch_state E model max_len v2) bs st.

(** The predictions of a batch, whatever its shape. *)
Definition preds_of (E : env) (model : nat) (max_len : Z) (v2 : bool)
    (batch : list sym) : gmap string string :=
  match batch with
  | [cw; _; qw; _; _; _; ids] => batch_preds E model max_len v2 cw qw ids
  | _ => ∅
  end.

(** The first token of [ws] that has no word in [d]. *)
Fixpoint first_missing (d : gmap string string) (ws : list Z) : option Z :=
  match ws with
  | [] => None
  | w :: ws' =>
      match d !! pretty w with
      | Some _ => first_missing d ws'
      | None => Some w
      end
  end.

(** A sample vocabulary that lacks a word for token 4. *)
Definition sparse_env : env :=
  {| ext_fail := ext_fail sample_env;
     available_gpus := available_gpus sample_env;
     train_records := train_records sample_env;
     dev_records := dev_records sample_env;
     rnd := rnd sample_env;
     idx2word := {[ "3" := "what" ]};
     checkpoint_params := checkpoint_params sample_env;
     tensor_rows := tensor_rows sample_env;
     paraphrase_tokens := paraphrase_tokens sample_env;
     convert_tokens := convert_tokens sample_env;
     eval_dicts := eval_dicts sample_env |}.

(** A sample world whose paraphraser emits a row with a single non-zero
    token. *)
Definition one_token_env : env :=
  {| ext_fail := ext_fail sample_env;
     available_gpus := available_gpus sample_env;
     train_records := train_records sample_env;
     dev_records := dev_records sample_env;
     rnd := rnd sample_env;
     idx2word := idx2word sample_env;
     checkpoint_params := checkpoint_params sample_env;
     tensor_rows := tensor_rows sample_env;
     paraphrase_tokens := fun _ => [[3; 0; 0]; [0; 0; 0]];
     convert_tokens := convert_tokens sample_env;
     eval_dicts := eval_dicts sample_env |}.

(** ** Further properties: modes during [main] *)

(** Forward passes run in training mode with gradients on; the only mode
    switch is the BiDAF module's [eval()], after which it is in inference
    mode in the heap [h]. *)
Definition mode_ok (h : gmap nat module_st) (e : event) : Prop :=
  match e with
  | Forward _ _ tr g => tr = true /\ g = true
  | SetMode m b =>
      m = bidaf_model /\ b = false /\
      exists st, h !! bidaf_model = Some st /\ training st = false
  | _ => True
  end.

Definition para_training (h : gmap nat module_st) : Prop :=
  forall st, h !! paraphaser_model = Some st -> training st = true.

Definition mode_inv (w : world) : Prop :=
  Forall (mode_ok (heap w)) (trace w) /\
  grad_enabled w = true /\
  para_training (heap w).

(** A sample world whose every batch predicts an answer for question q1. *)
Definition answer_env : env :=
  {| ext_fail := ext_fail sample_env;
     available_gpus := available_gpus sample_env;
     train_records := train_records sample_env;
     dev_records := dev_records sample_env;
     rnd := rnd sample_env;
     idx2word := idx2word sample_env;
     checkpoint_params := checkpoint_params sample_env;
     tensor_rows := tensor_rows sample_env;
     paraphrase_tokens := paraphrase_tokens sample_env;
     convert_tokens := fun _ => {[ "q1" := "in 1066" ]};
     eval_dicts := eval_dicts sample_env |}.

(** A sample world whose metrics lack the exact-match score. *)
Definition no_em_env : env :=
  {| ext_fail := ext_fail sample_env;
     available_gpus := available_gpus sample_env;
     train_records := train_records sample_env;
     dev_records := dev_records sample_env;
     rnd := rnd sample_env;
     idx2word := idx2word sample_env;
     checkpoint_params := checkpoint_params sample_env;
     tensor_rows := tensor_rows sample_env;
     paraphrase_tokens := paraphrase_tokens sample_env;
     convert_tokens := convert_tokens sample_env;
     eval_dicts := fun _ _ => {[ "F1" := Num 1 ]} |}.

(** A sample world in which the embeddings and the evaluation file cannot be
    read. *)
Definition failing_env : env :=
  {| ext_fail := fun s _ =>
       match s with
       | TorchFromJson | JsonLoad => Some (External "unreadable file")
       | _ => None
       end;
     available_gpus := available_gpus sample_env;
     train_records := train_records sample_env;
     dev_records := dev_records sample_env;
     rnd := rnd sample_env;
     idx2word := idx2word sample_env;
     checkpoint_params := checkpoint_params sample_env;
     tensor_rows := tensor_rows sample_env;
     paraphrase_tokens := paraphrase_tokens sample_env;
     convert_tokens := convert_tokens sample_env;
     eval_dicts := eval_dicts sample_env |}.

(** ** Further properties: where a failure of [evaluate] falls *)

(** Before [model.train()] (line 240): nothing has failed, and neither
    [model.train()] nor [util.eval_dicts] has been called. *)
Definition before_train (model : nat) (e : event) : Prop :=
  ~ is_failed e /\ e <> SetMode model true /\ e <> Called EvalDicts.

(** After [model.train()] only [util.eval_dicts] is called. *)
Definition after_train (e : event) : Prop :=
  e = Called EvalDicts \/ exists x, e = Failed EvalDicts x.

(** The shape of the trace of a call of [evaluate]: still before
    [model.train()], with at most a failed call other than [util.eval_dicts]
    at the end; or past [model.train()]. *)
Definition placed (model : nat) (w : world) : Prop :=
  (exists t,
     Forall (before_train model) t /\
     (trace w = t \/
      exists s e, s <> EvalDicts /\ trace w = (t ++ [Failed s e])%list)) \/
  (exists t tail,
     Forall (before_train model) t /\ Forall after_train tail /\
     trace w = (t ++ SetMode model true :: tail)%list).
(** * Proofs *)

(** ** Rules of the weakest precondition *)

Section WpRules.
Context {A B : Type}.
Implicit Types (Q : A -> world -> Prop) (X : option exn -> world -> Prop).

Lemma wp_bind (m : M A) (k : A -> M B) (R : B -> world -> Prop) X w :
  wp m (fun a => wp (k a) R X) X w -> wp (bind m k) R X w.
Proof. unfold wp, bind. destruct (m w) as [[a|e|] w']; auto. Qed.

Lemma wp_ret (a : A) Q X w : Q a w -> wp (ret a) Q X w.
Proof. auto. Qed.

Lemma wp_raise (e : exn) Q X w : X (Some e) w -> wp (raise e) Q X w.
Proof. auto. Qed.

Lemma wp_mono (m : M A) Q Q' X X' w :
  wp m Q X w ->
  (forall a w', Q a w' -> Q' a w') ->
  (forall x w', X x w' -> X' x w') ->
  wp m Q' X' w.
Proof. unfold wp. destruct (m w) as [[a|e|] w']; auto. Qed.

Lemma wp_run (m : M A) Q X w :
  wp m Q X w ->
  match fst (m w) with
  | Ok a => Q a (snd (m w))
  | Raise e => X (Some e) (snd (m w))
  | OutOfFuel => X None (snd (m w))
  end.
Proof. unfold wp. destruct (m w) as [[a|e|] w']; auto. Qed.
End WpRules.

Lemma wp_emit (e : event) (Q : unit -> world -> Prop) X w :
  Q tt (snoc w e) -> wp (emit e) Q X w.
Proof. auto. Qed.

Lemma wp_note_forward (m : nat) (xs : list sym) (Q : unit -> world -> Prop) X w :
  Q tt (snoc w (Forward m xs (is_training w m) (grad_enabled w))) ->
  wp (note_forward m xs) Q X w.
Proof. auto. Qed.

Lemma wp_ext (E : env) (s : site) (Q : unit -> world -> Prop) X w :
  (forall e, ext_fail E s (length (trace w)) = Some e ->
             X (Some e) (snoc w (Failed s e))) ->
  (ext_fail E s (length (trace w)) = None -> Q tt (snoc w (Called s))) ->
  wp (ext E s) Q X w.
Proof.
  intros Hf Hs. unfold wp, ext.
  destruct (ext_fail E s (length (trace w))) as [e|]; [apply Hf | apply Hs]; auto.
Qed.

Lemma wp_fail_at {A} (s : site) (e : exn) (Q : A -> world -> Prop) X w :
  X (Some e) (snoc w (Failed s e)) -> wp (fail_at s e) Q X w.
Proof. auto. Qed.

Lemma wp_with_grad {A} (b : bool) (body : M A) (Q : A -> world -> Prop) X w :
  wp body
     (fun a w' => Q a {| trace := trace w'; grad_enabled := grad_enabled w;
                         heap := heap w' |})
     (fun x w' => X x {| trace := trace w'; grad_enabled := grad_enabled w;
                         heap := heap w' |})
     {| trace := trace w; grad_enabled := b; heap := heap w |} ->
  wp (with_grad b body) Q X w.
Proof.
  unfold wp, with_grad.
  destruct (body _) as [[a|e|] w']; auto.
Qed.

(** The loop rule for [for]: [I] holds between passes; a pass that returns
    establishes the postcondition at once. *)
Lemma wp_for_each {A S R} (I : S -> world -> Prop) (P : A -> Prop)
    (xs : list A) (body : A -> S -> M (option R * S))
    (Q : option R * S -> world -> Prop) X s w :
  Forall P xs ->
  (forall s w, I s w -> Q (None, s) w) ->
  (forall x s w, P x -> I s w ->
     wp (body x s)
        (fun r w' => match r with
                     | (Some v, s') => Q (Some v, s') w'
                     | (None, s') => I s' w'
                     end) X w) ->
  I s w ->
  wp (for_each xs body s) Q X w.
Proof.
  intros HP Hend Hbody. revert s w.
  induction HP as [|x xs Hx _ IH]; intros s w HI; simpl.
  - apply wp_ret. auto.
  - apply wp_bind. eapply wp_mono; [apply Hbody; auto | | auto].
    intros [[v|] s'] w' H; [apply wp_ret; exact H | apply IH; exact H].
Qed.

(** The loop rule for the [while] over epochs. *)
Lemma wp_epoch_loop {S} (I : Z -> S -> world -> Prop)
    (body : Z -> S -> M (option unit * S)) (n : Z)
    (Q : unit -> world -> Prop) X fuel epoch s w :
  (forall s w, I n s w -> Q tt w) ->
  (forall ep s w, I ep s w -> X None w) ->
  (forall ep s w, ep <> n -> I ep s w ->
     wp (body (ep + 1) s)
        (fun r w' => match r with
                     | (Some _, _) => Q tt w'
                     | (None, s') => I (ep + 1) s' w'
                     end) X (snoc w (EpochStart (ep + 1)))) ->
  I epoch s w ->
  wp (epoch_loop body n fuel epoch s) Q X w.
Proof.
  intros Hend Hfuel Hbody. revert epoch s w.
  induction fuel as [|fuel IH]; intros epoch s w HI; simpl.
  - destruct (Z.eqb_spec epoch n) as [->|Hne].
    + exact (Hend _ _ HI).
    + exact (Hfuel _ _ _ HI).
  - destruct (Z.eqb_spec epoch n) as [->|Hne].
    + exact (Hend _ _ HI).
    + apply wp_bind, wp_emit, wp_bind.
      eapply wp_mono; [apply Hbody; eauto | | auto].
      intros [[v|] s'] w' H; [apply wp_ret; exact H | apply IH; exact H].
Qed.

Lemma wp_put_module (m : nat) (s : module_st) (Q : unit -> world -> Prop) X w :
  Q tt {| trace := trace w; grad_enabled := grad_enabled w;
          heap := <[m := s]> (heap w) |} ->
  wp (put_module m s) Q X w.
Proof. auto. Qed.

Lemma wp_alter_module (f : module_st -> module_st) (m : nat)
    (Q : unit -> world -> Prop) X w :
  Q tt {| trace := trace w; grad_enabled := grad_enabled w;
          heap := alter f m (heap w) |} ->
  wp (alter_module f m) Q X w.
Proof. auto. Qed.

Lemma wp_iter_loader (E : env) (ld : loader) (Q : list (list sym) -> world -> Prop) X w :
  (forall r, Q (map (collate_fn ld) (chunks_from (per_batch ld) [] (r (dataset ld)))) w) ->
  wp (iter_loader E ld) Q X w.
Proof. intros H. unfold wp, iter_loader. destruct (shuffle ld); [apply H | apply (H id)]. Qed.

(** ** The invariant of [main] *)

(** Lines 149-201 never get past their first name: [optimizer] is bound
    nowhere. *)
Lemma train_step_raises E a dl cw qw y1 y2 bs st :
  train_step E a dl cw qw y1 y2 bs st = raise (NameError "optimizer").
Proof. reflexivity. Qed.

Lemma Forall_snoc {A} (P : A -> Prop) (l : list A) (x : A) :
  Forall P l -> P x -> Forall P (l ++ [x]).
Proof. intros Hl Hx. apply Forall_app. split; [exact Hl | constructor; [exact Hx | constructor]]. Qed.

Lemma raised_by_call (s : site) (e : exn) (t : list event) :
  clean t -> raised_here e (t ++ [Failed s e]).
Proof. intros Ht. left. exists s, t. split; [reflexivity | exact Ht]. Qed.

Lemma raised_by_script (e : exn) (t : list event) :
  clean t -> own_error e -> raised_here e t.
Proof. intros Ht He. right. split; assumption. Qed.

Lemma truthy_default (p : option string) :
  truthy p = true -> p = Some (default "" p).
Proof. destruct p; [reflexivity | discriminate]. Qed.

Ltac wp_norm := unfold snoc; cbn [trace grad_enabled heap initial_world].

Ltac wp_step :=
  lazymatch goal with
  | |- wp (bind _ _) _ _ _ => apply wp_bind
  | |- wp (ret _) _ _ _ => apply wp_ret
  | |- wp (raise _) _ _ _ => apply wp_raise
  | |- wp (emit _) _ _ _ => apply wp_emit
  | |- wp (fail_at _ _) _ _ _ => apply wp_fail_at
  | |- wp (ext _ _) _ _ _ => apply wp_ext; [intros ? _ | intros _]
  | |- wp (to_device _ _) _ _ _ => unfold to_device
  | |- wp (forward _ _ _ _) _ _ _ => unfold forward
  | |- wp (set_mode _ _) _ _ _ => unfold set_mode
  | |- wp (put_module _ _) _ _ _ => apply wp_put_module
  | |- wp (alter_module _ _) _ _ _ => apply wp_alter_module
  | |- wp (DataLoader _ _ _ _ _ _) _ _ _ => unfold DataLoader
  | |- wp (if ?b then _ else _) _ _ _ => destruct b eqn:?
  | |- wp (note_forward _ _) _ _ _ => apply wp_note_forward
  end; wp_norm.

(** Closing tactics for the facts a run keeps. *)

Lemma models_differ : paraphaser_model <> bidaf_model.
Proof. discriminate. Qed.

Ltac heap_simpl :=
  repeat first [ rewrite lookup_alter_eq
               | rewrite lookup_insert_eq
               | rewrite (lookup_insert_ne _ _ _ _ models_differ)
               | rewrite lookup_empty ];
  cbn [fmap option_fmap option_map].

Ltac heap_simpl_in H :=
  repeat first [ rewrite lookup_alter_eq in H
               | rewrite lookup_insert_eq in H
               | rewrite (lookup_insert_ne _ _ _ _ models_differ) in H
               | rewrite lookup_empty in H ];
  cbn [fmap option_fmap option_map] in H.

Lemma forwards_snoc (t : list event) (e : event) :
  forwards (t ++ [e]) = (forwards t + (if is_forward e then 1 else 0))%nat.
Proof.
  unfold forwards. rewrite List.filter_app, length_app. simpl.
  destruct (is_forward e); reflexivity.
Qed.

Lemma epochs_started_snoc (t : list event) (e : event) :
  epochs_started (t ++ [e]) = (epochs_started t + (if is_epoch_start e then 1 else 0))%nat.
Proof.
  unfold epochs_started. rewrite List.filter_app, length_app. simpl.
  destruct (is_epoch_start e); reflexivity.
Qed.

Ltac solve_event :=
  lazymatch goal with
  | |- allowed _ _ _ (Built _ _) =>
      cbn [allowed];
      first [ left; split; reflexivity
            | right; split; [reflexivity | ];
              repeat match goal with H : short_test _ = _ |- _ => rewrite H end;
              reflexivity ]
  | |- allowed _ _ _ (Loaded _) =>
      cbn [allowed];
      repeat match goal with
             | H : negb _ = _ |- _ => apply negb_false_iff in H
             end;
      split; [assumption | split; [apply truthy_default; assumption | ]];
      split; [assumption | ];
      heap_simpl; eexists; split; reflexivity
  | |- allowed _ _ _ (SetMode _ _) =>
      cbn [allowed]; split; [assumption | split; reflexivity]
  | |- allowed _ _ _ (Exit _) =>
      cbn [allowed];
      repeat match goal with
             | H : negb _ = _ |- _ => apply negb_true_iff in H
             end;
      split; [reflexivity | split; assumption]
  | |- allowed _ _ _ (Forward _ _ _ _) =>
      cbn [allowed]; split; [reflexivity | eexists; reflexivity]
  | |- allowed _ _ _ (Printed _) =>
      cbn [allowed]; eexists _, _; split; eassumption
  | |- allowed _ _ _ _ => cbn [allowed main_site]; first [exact I | assumption]
  | |- ~ is_failed _ => exact (fun H => H)
  end.

Ltac solve_trace :=
  repeat (apply Forall_snoc; [ | solve_event ]);
  first [ exact (List.Forall_nil _) | assumption ].

Ltac solve_unregistered :=
  first [ assumption
        | let st := fresh "st" in let H := fresh "H" in
          intros st H; heap_simpl_in H; inversion H; reflexivity ].

Ltac solve_forwards :=
  rewrite ?forwards_snoc; cbn [is_forward];
  change (forwards []) with 0%nat;
  repeat match goal with H : forwards _ = _ |- _ => rewrite H end;
  rewrite ?Nat.add_0_r; reflexivity.

Ltac solve_inv :=
  lazymatch goal with
  | |- main_inv _ _ _ _ =>
      unfold main_inv; cbn [trace heap];
      split; [ solve_trace | split; [ solve_unregistered | solve_forwards ] ]
  end.

Ltac solve_some_inv :=
  (eexists; split; [ | solve_inv ]); cbn; lia.

Ltac leaf :=
  lazymatch goal with
  | |- main_post _ _ (Some _) _ =>
      unfold main_post; cbn [trace heap];
      split; [ solve_some_inv | ];
      first [ apply raised_by_call; solve_trace
            | apply raised_by_script; [ solve_trace | exact I || reflexivity ] ]
  | |- main_post _ _ None _ =>
      unfold main_post, running; cbn [trace heap]; split; [ solve_inv | solve_trace ]
  | |- running _ _ _ =>
      unfold running; cbn [trace heap]; split; [ solve_inv | solve_trace ]
  | |- main_done _ _ _ =>
      unfold main_done; cbn [trace heap]; split; [ solve_some_inv | solve_trace ]
  end.

Lemma lookup_words_run (d : gmap string string) (ws : list Z) (w : world) :
  match words_of d ws with
  | Some l => lookup_words d ws w = (Ok l, w)
  | None => exists k, lookup_words d ws w = (Raise (KeyError k), w)
  end.
Proof.
  induction ws as [|x ws IH]; simpl.
  - reflexivity.
  - unfold bind, subscript. destruct (d !! pretty x) as [s|].
    + destruct (words_of d ws) as [l|].
      * unfold ret at 1. rewrite IH. reflexivity.
      * destruct IH as [k Hk]. exists k. unfold ret at 1. rewrite Hk. reflexivity.
    + eexists. reflexivity.
Qed.

Lemma print_paraphrased_inv E a (n : nat) (ps : list (list Z)) (w : world) :
  (n <= 1)%nat ->
  (forall p, In p ps -> exists xs, In p (paraphrase_tokens E xs)) ->
  main_inv E a n w -> clean (trace w) ->
  wp (print_paraphrased E ps)
     (fun _ w' => main_inv E a n w' /\ clean (trace w')) (main_post E a) w.
Proof.
  intros Hn. revert w. induction ps as [|p ps IH]; intros w Hps (Ht & Hu & Hf) Hc; simpl.
  - apply wp_ret. repeat split; assumption.
  - destruct (Hps p (or_introl eq_refl)) as [xs Hp].
    wp_step. wp_step; [leaf | ]. wp_step.
    destruct (squeeze (List.filter (fun x => negb (x =? 0)) p)) as [x|ws] eqn:Hsq;
      cbn [iter_tensor]; wp_step; [leaf | ].
    wp_step. unfold wp at 1.
    pose proof (lookup_words_run (idx2word E) ws
                  {| trace := trace w ++ [Called NonZero];
                     grad_enabled := grad_enabled w; heap := heap w |}) as Hrun.
    destruct (words_of (idx2word E) ws) as [l|] eqn:Hl.
    + rewrite Hrun.
      assert (Hd : decoded E p = Some (String.concat " " l))
        by (unfold decoded; rewrite Hsq, Hl; reflexivity).
      wp_step. wp_step. apply IH.
      * intros q Hq. apply Hps. right. exact Hq.
      * solve_inv.
      * solve_trace.
    + destruct Hrun as [k ->]. leaf.
Qed.

Lemma train_batch_inv E a dl epoch rows st (w : world) :
  running E a w ->
  wp (train_batch E a dl epoch (collate_fn_para rows) st)
     (fun r w' => match r with
                  | (Some _, _) => main_done E a w'
                  | (None, _) => running E a w'
                  end) (main_post E a) w.
Proof.
  intros [(Ht & Hu & Hf) Hc].
  cbn [collate_fn_para map para_fields train_batch].
  repeat wp_step; try (leaf; fail).
  eapply wp_mono;
    [ apply (print_paraphrased_inv E a 1);
      [ lia | intros p Hp; eexists; exact Hp | solve_inv | solve_trace ]
    | | auto ].
  intros ? w' [(Ht' & Hu' & Hf') Hc']. cbv beta. repeat wp_step.
  - leaf.
  - rewrite train_step_raises. wp_step. leaf.
Qed.

Lemma training_inv E a tl dl fuel epoch st (w : world) :
  collate_fn tl = collate_fn_para ->
  running E a w ->
  wp (epoch_loop (train_epoch E a tl dl) (num_epochs a) fuel epoch st)
     (fun _ => main_done E a) (main_post E a) w.
Proof.
  intros Hcol Hw.
  apply (wp_epoch_loop (fun _ _ => running E a)); [ | auto | | exact Hw].
  { intros _ w' [(Ht & Hu & Hf) Hc]. leaf. }
  clear Hw w. intros ep s w _ [(Ht & Hu & Hf) Hc].
  unfold train_epoch. wp_step. wp_step.
  apply wp_with_grad. wp_step. apply wp_iter_loader. intros r.
  rewrite Hcol.
  eapply (wp_mono _ (fun r w' => match r with
                                 | (Some _, _) => main_done E a w'
                                 | (None, _) => running E a w'
                                 end) _ (main_post E a)).
  - apply (wp_for_each (fun _ => running E a)
             (fun b => exists rows, b = collate_fn_para rows)).
    + apply Forall_map. apply Forall_forall. intros rows _. exists rows. reflexivity.
    + intros s' w' H. exact H.
    + intros b s' w' [rows ->] H.
      eapply wp_mono; [apply train_batch_inv; exact H | | auto].
      intros [[v|] s''] w'' H'; exact H'.
    + leaf.
  - intros [[v|] s'] w' H; cbv beta; exact H.
  - intros [e|] w' H; exact H.
Qed.

(** Every run of [main]: what it has done when it returns, raises or runs out
    of fuel. *)
Lemma main_run_inv E a fuel :
  wp (main E a fuel) (fun _ => main_done E a) (main_post E a) initial_world.
Proof.
  unfold main.
  repeat wp_step; try (leaf; fail).
  all: unfold floordiv; wp_step; wp_step; [leaf | ].
  all: apply training_inv; [reflexivity | leaf].
Qed.

(** ** The invariant of [evaluate] *)

Lemma own_unpack_error (n k : nat) : own_error (unpack_error n k).
Proof. unfold unpack_error. destruct (k <? n)%nat; exact I. Qed.

Lemma eval_loop_weaken model (t : list event) :
  Forall (eval_loop_ok model) t ->
  Forall (eval_allowed model) t /\ clean t /\
  Forall (fun e => e <> SetMode model true) t.
Proof.
  intros H. repeat split; eapply Forall_impl; try exact H; intros e (? & ? & ?); assumption.
Qed.

Lemma is_training_eval model (h0 : gmap nat module_st) (w : world) :
  is_Some (h0 !! model) ->
  heap w = alter (set_training false) model h0 ->
  is_training w model = false.
Proof.
  intros [st Hst] Hw. unfold is_training. rewrite Hw, lookup_alter_eq, Hst. reflexivity.
Qed.

Lemma alter_twice (b b' : bool) (model : nat) (h : gmap nat module_st) :
  alter (set_training b) model (alter (set_training b') model h)
  = alter (set_training b) model h.
Proof.
  rewrite alter_alter_eq. apply alter_ext. intros st _. reflexivity.
Qed.

Ltac solve_eval_event :=
  lazymatch goal with
  | |- eval_loop_ok _ _ =>
      split; [ cbn [eval_allowed]; first [exact I | repeat split; reflexivity]
             | split; [ exact (fun H => H) | discriminate ] ]
  | |- eval_allowed _ _ =>
      cbn [eval_allowed]; first [exact I | repeat split; reflexivity]
  | |- ~ is_failed _ => exact (fun H => H)
  | |- _ <> _ => discriminate
  end.

Ltac solve_eval_trace :=
  repeat (apply Forall_snoc; [ | solve_eval_event ]);
  first [ exact (List.Forall_nil _) | assumption ].

Ltac eval_leaf :=
  lazymatch goal with
  | |- eval_loop_inv _ _ _ =>
      unfold eval_loop_inv; cbn [trace heap grad_enabled];
      split; [ solve_eval_trace | split; first [assumption | reflexivity] ]
  | |- eval_raised _ _ _ _ =>
      unfold eval_raised; cbn [trace heap grad_enabled];
      split; [ solve_eval_trace | ];
      split; [ first [ apply raised_by_call; solve_eval_trace
                     | apply raised_by_script;
                       [ solve_eval_trace | first [ exact I | apply own_unpack_error ] ] ] | ];
      split; [ solve_eval_trace | first [assumption | reflexivity] ]
  end.

Lemma eval_batch_inv E model max_len v2 h0 batch st (w : world) :
  is_Some (h0 !! model) ->
  eval_loop_inv model h0 w ->
  wp (eval_batch E model max_len v2 batch st)
     (fun _ => eval_loop_inv model h0) (eval_raised model h0) w.
Proof.
  intros Hm (Ht & Hh & Hg).
  destruct (eval_loop_weaken _ _ Ht) as (Ha & Hc & Hn).
  assert (Hf : forall t g,
             is_training {| trace := t; grad_enabled := g; heap := heap w |} model
             = false).
  { intros t g. apply (is_training_eval model h0); assumption. }
  unfold eval_batch.
  destruct batch as [|? [|? [|? [|? [|? [|? [|? [|? ?]]]]]]]];
    try (wp_step; eval_leaf; fail).
  unfold nll_loss_sum.
  repeat (wp_step; rewrite ?Hf, ?Hg); try (eval_leaf; fail).
Qed.

Ltac solve_mem :=
  repeat first [ apply elem_of_app; right; apply list_elem_of_singleton; reflexivity
               | apply elem_of_app; left ].

Ltac eval_post_leaf :=
  lazymatch goal with
  | |- eval_post _ _ _ (Some _) _ =>
      unfold eval_post; cbn [trace heap grad_enabled];
      split; [ solve_eval_trace | ];
      split; [ reflexivity | ];
      split; [ first [ apply raised_by_call; solve_eval_trace
                     | apply raised_by_script; [ solve_eval_trace | exact I ] ] | ];
      first [ left; split; [ solve_eval_trace | first [assumption | reflexivity] ]
            | right; split; [ solve_mem | first [assumption | reflexivity] ] ]
  | |- eval_post _ _ _ None _ =>
      unfold eval_post; cbn [trace heap grad_enabled];
      split; [ solve_eval_trace | ];
      split; [ reflexivity | ];
      split; [ solve_eval_trace | first [assumption | reflexivity] ]
  end.

Lemma wp_subscript {V} (d : gmap string V) (k : string) (Q : V -> world -> Prop) X w :
  (forall v, d !! k = Some v -> Q v w) ->
  (d !! k = None -> X (Some (KeyError k)) w) ->
  wp (subscript d k) Q X w.
Proof.
  intros Hs Hn. unfold wp, subscript. destruct (d !! k); [apply Hs | apply Hn]; reflexivity.
Qed.

Lemma evaluate_run_inv E model ld f ml v2 (h0 : gmap nat module_st) (g : bool) :
  is_Some (h0 !! model) ->
  wp (evaluate E model ld f ml v2)
     (fun _ => eval_post model h0 g None) (eval_post model h0 g)
     {| trace := []; grad_enabled := g; heap := h0 |}.
Proof.
  intros Hm. unfold evaluate.
  repeat wp_step; try (eval_post_leaf; fail).
  apply wp_with_grad. wp_step. apply wp_iter_loader. intros r.
  eapply (wp_mono _ (fun _ => eval_loop_inv model h0) _ (eval_raised model h0)).
  - apply (wp_for_each (fun _ => eval_loop_inv model h0) (fun _ => True)).
    + apply Forall_forall. intros; exact I.
    + intros s w H. exact H.
    + intros b s w _ H.
      eapply wp_mono; [apply eval_batch_inv; [exact Hm | exact H] | | auto].
      intros [[v|] s'] w' H'; [destruct v | exact H'].
    + eval_leaf.
  - intros _x w (Ht & Hh & Hg). cbv beta.
    destruct (eval_loop_weaken _ _ Ht) as (Ha & Hc & Hn).
    repeat wp_step; rewrite ?Hh, ?alter_twice; try (eval_post_leaf; fail).
    apply wp_subscript; [intros f1 _ | intros _; eval_post_leaf].
    wp_step. apply wp_subscript; [intros em _ | intros _; eval_post_leaf].
    wp_step. wp_step.
    + wp_step. apply wp_subscript; [intros av _ | intros _; eval_post_leaf].
      wp_step. wp_step. eval_post_leaf.
    + wp_step. wp_step. eval_post_leaf.
  - intros [e|] w (Ha & Hr & Hn & Hh); [ | destruct Hr].
    unfold eval_post. cbn [trace heap grad_enabled].
    split; [exact Ha | split; [reflexivity | split; [exact Hr | left; split; assumption]]].
Qed.

(** ** Stepping through a run whose calls return *)

Section RunRules.
Context {B : Type}.

Lemma run_ext E s (k : unit -> M B) w :
  ext_fail E s (length (trace w)) = None ->
  bind (ext E s) k w = k tt (snoc w (Called s)).
Proof. intros H. unfold bind, ext. rewrite H. reflexivity. Qed.

Lemma run_emit e (k : unit -> M B) w : bind (emit e) k w = k tt (snoc w e).
Proof. reflexivity. Qed.

Lemma run_note_forward m xs (k : unit -> M B) w :
  bind (note_forward m xs) k w
  = k tt (snoc w (Forward m xs (is_training w m) (grad_enabled w))).
Proof. reflexivity. Qed.

Lemma run_ret {A} (a : A) (k : A -> M B) w : bind (ret a) k w = k a w.
Proof. reflexivity. Qed.

Lemma run_raise {A} e (k : A -> M B) w : bind (raise e) k w = (Raise e, w).
Proof. reflexivity. Qed.

Lemma run_put_module m s (k : unit -> M B) w :
  bind (put_module m s) k w
  = k tt {| trace := trace w; grad_enabled := grad_enabled w;
            heap := <[m := s]> (heap w) |}.
Proof. reflexivity. Qed.

Lemma run_alter_module f m (k : unit -> M B) w :
  bind (alter_module f m) k w
  = k tt {| trace := trace w; grad_enabled := grad_enabled w;
            heap := alter f m (heap w) |}.
Proof. reflexivity. Qed.

Lemma run_assoc {A A'} (m : M A) (k1 : A -> M A') (k2 : A' -> M B) w :
  bind (bind m k1) k2 w = bind m (fun x => bind (k1 x) k2) w.
Proof. unfold bind. destruct (m w) as [[a|e|] w']; reflexivity. Qed.
End RunRules.

Ltac run_norm := cbv beta; unfold snoc; cbn [trace grad_enabled heap initial_world].

Ltac run_step H :=
  first [ rewrite run_assoc
        | rewrite run_ext by (apply H; simpl; tauto)
        | rewrite run_emit
        | rewrite run_note_forward
        | rewrite run_ret
        | rewrite run_raise
        | rewrite run_put_module
        | rewrite run_alter_module ];
  run_norm.


Lemma main_setup_run E a fuel :
  returns E setup_sites ->
  short_test a = true \/ truthy (load_path a) = true ->
  0 < batch_size a ->
  train_records E <> [] ->
  main E a fuel initial_world
  = bind (floordiv 0 (Z.of_nat (length (train_records E))))
         (fun epoch =>
            epoch_loop (train_epoch E a (training_loader E a) (held_out_loader E a))
                       (num_epochs a) fuel epoch (0, eval_steps a))
         (setup_world E a).
Proof.
  intros Hr Hmode Hb Hne.
  assert (Hbs : (effective_batch_size E a <=? 0) = false).
  { apply Z.leb_gt. unfold effective_batch_size. nia. }
  assert (Hlen : (length (train_records E) =? 0)%nat = false).
  { destruct (train_records E); [congruence | reflexivity]. }
  unfold main. fold (effective_batch_size E a).
  unfold DataLoader. rewrite Hbs, Hlen. cbn [andb].
  unfold setup_world, setup_heap, load_trace, data_trace, training_loader, held_out_loader.
  destruct (short_test a) eqn:Hs.
  - repeat run_step Hr. reflexivity.
  - destruct Hmode as [Hm|Hm]; [discriminate | ]. rewrite Hm. cbn [negb].
    unfold set_mode. repeat run_step Hr. reflexivity.
Qed.

Lemma insert_at_nonempty {A} (i : nat) (x : A) (l : list A) : insert_at i x l <> [].
Proof. destruct i, l; discriminate. Qed.

Lemma shuffled_nonempty {A} (r : nat -> nat) (l : list A) : l <> [] -> shuffled r l <> [].
Proof. destruct l as [|x l]; [congruence | intros _; apply insert_at_nonempty]. Qed.

Lemma chunks_from_nonempty {A} (n : nat) (l cur : list A) :
  cur <> [] \/ l <> [] ->
  exists c cs, chunks_from n cur l = c :: cs /\ c <> [].
Proof.
  revert cur. induction l as [|x l IH]; intros cur H; simpl.
  - destruct H as [H|H]; [ | congruence].
    destruct cur; [congruence | eexists _, _; split; [reflexivity | discriminate]].
  - assert (Hc : (cur ++ [x])%list <> []) by (destruct cur; discriminate).
    destruct (length (cur ++ [x]) =? n)%nat.
    + eexists _, _. split; [reflexivity | exact Hc].
    + apply IH. left. exact Hc.
Qed.

Lemma world_eta (w : world) :
  {| trace := trace w; grad_enabled := grad_enabled w; heap := heap w |} = w.
Proof. destruct w; reflexivity. Qed.

Lemma print_paraphrased_run E (ps : list (list Z)) (w : world) :
  (forall n, ext_fail E NonZero n = None) ->
  (forall p, In p ps -> decoded E p <> None) ->
  print_paraphrased E ps w
  = (Ok tt, {| trace := trace w ++ print_events E ps;
               grad_enabled := grad_enabled w; heap := heap w |}).
Proof.
  intros Hnz. revert w. induction ps as [|p ps IH]; intros w Hd; simpl.
  - rewrite app_nil_r, world_eta. reflexivity.
  - rewrite run_ext by apply Hnz. run_norm.
    pose proof (Hd p (or_introl eq_refl)) as Hp. unfold decoded in Hp |- *.
    destruct (squeeze (List.filter (fun x => negb (x =? 0)) p)) as [x|ws];
      [congruence | ].
    cbn [iter_tensor]. rewrite run_ret.
    pose proof (lookup_words_run (idx2word E) ws
                  {| trace := trace w ++ [Called NonZero];
                     grad_enabled := grad_enabled w; heap := heap w |}) as Hrun.
    destruct (words_of (idx2word E) ws) as [l|]; [ | congruence].
    unfold bind at 1. rewrite Hrun. rewrite run_emit. run_norm.
    rewrite IH by (intros q Hq; apply Hd; right; exact Hq).
    cbn [trace grad_enabled heap default]. rewrite <- !app_assoc. reflexivity.
Qed.


Lemma returns_app E (s1 s2 : list site) :
  returns E (s1 ++ s2) -> returns E s1 /\ returns E s2.
Proof.
  intros H. split; intros s n Hs; apply H; apply in_or_app; [left | right]; exact Hs.
Qed.

Lemma floordiv_zero_run {B} (n : Z) (k : Z -> M B) (w : world) :
  n <> 0 -> bind (floordiv 0 n) k w = k 0 w.
Proof.
  intros Hn. unfold floordiv. destruct (Z.eqb_spec n 0) as [|_]; [contradiction | ].
  rewrite Z.div_0_l by exact Hn. reflexivity.
Qed.



(** * The claims *)

Lemma wp_any {A} (m : M A) (w : world) : wp m (fun _ _ => True) (fun _ _ => True) w.
Proof. unfold wp. destruct (m w) as [[a|e|] w']; exact I. Qed.

Lemma evaluate_keys_wp E model ld f ml v2 (w : world) :
  wp (evaluate E model ld f ml v2)
     (fun r _ => keys (fst r)
                 = if v2 then ["NLL"; "F1"; "EM"; "AvNA"] else ["NLL"; "F1"; "EM"])
     (fun _ _ => True) w.
Proof.
  unfold evaluate.
  repeat wp_step; try exact I.
  apply wp_with_grad.
  eapply wp_mono; [apply wp_any | | auto].
  intros r w' _. cbv beta.
  repeat wp_step; try exact I.
  apply wp_subscript; [intros f1 _ | intros _; exact I].
  wp_step. apply wp_subscript; [intros em _ | intros _; exact I].
  wp_step. wp_step.
  - wp_step. apply wp_subscript; [intros av _ | intros _; exact I].
    wp_step. wp_step. reflexivity.
  - wp_step. wp_step. reflexivity.
Qed.

(** C4. Whenever [evaluate] returns, the keys of [results] are, in order,
    NLL, F1, EM, followed by AvNA exactly when [use_squad_v2] is set. *)
Theorem evaluate_result_keys E model ld f ml v2 (w w' : world)
    (results : list (string * sym)) (pred_dict : gmap string string) :
  evaluate E model ld f ml v2 w = (Ok (results, pred_dict), w') ->
  keys results = if v2 then ["NLL"; "F1"; "EM"; "AvNA"] else ["NLL"; "F1"; "EM"].
Proof.
  intros H. pose proof (evaluate_keys_wp E model ld f ml v2 w) as Hwp.
  unfold wp in Hwp. rewrite H in Hwp. exact Hwp.
Qed.

Lemma evaluate_result_keys_witness :
  exists results pred_dict w',
    evaluate sample_env 5%nat squad_loader "dev_eval.json" 15 true
             (start sample_heap true) = (Ok (results, pred_dict), w') /\
    keys results = ["NLL"; "F1"; "EM"; "AvNA"].
Proof.
  destruct (evaluate sample_env 5%nat squad_loader "dev_eval.json" 15 true
              (start sample_heap true)) as [[[results pred_dict]|e|] w'] eqn:Hrun;
    try (vm_compute in Hrun; discriminate).
  exists results, pred_dict, w'. split; [reflexivity | ].
  exact (evaluate_result_keys _ _ _ _ _ _ _ _ _ _ Hrun).
Defined.

(** ** Facts about every run, read off the invariants *)

Lemma main_always E a fuel :
  exists n, (n <= 1)%nat /\ main_inv E a n (snd (main E a fuel initial_world)).
Proof.
  pose proof (wp_run _ _ _ _ (main_run_inv E a fuel)) as H.
  destruct (fst (main E a fuel initial_world)) as [[]|e|].
  - exact (proj1 H).
  - exact (proj1 H).
  - destruct H as [Hi _]. exists 0%nat. split; [lia | exact Hi].
Qed.

Lemma main_events E a fuel (e : event) :
  e ∈ trace (snd (main E a fuel initial_world)) ->
  allowed E a (heap (snd (main E a fuel initial_world))) e.
Proof.
  destruct (main_always E a fuel) as (n & _ & Ht & _ & _).
  intros He. rewrite Forall_forall in Ht. apply Ht. exact He.
Qed.

Lemma is_training_alter (b : bool) (model : nat) (h : gmap nat module_st) (w : world) :
  is_Some (h !! model) ->
  heap w = alter (set_training b) model h ->
  is_training w model = b.
Proof.
  intros [st Hst] Hw. unfold is_training. rewrite Hw, lookup_alter_eq, Hst. reflexivity.
Qed.

Lemma alter_training_params (b : bool) (model k : nat) (h : gmap nat module_st) :
  params <$> (alter (set_training b) model h !! k) = params <$> (h !! k) /\
  registered <$> (alter (set_training b) model h !! k) = registered <$> (h !! k).
Proof.
  rewrite lookup_alter. destruct (decide (model = k)) as [->|]; [ | split; reflexivity].
  destruct (h !! k); split; reflexivity.
Qed.

Lemma evaluate_heap E model ld f ml v2 (h : gmap nat module_st) (g : bool) :
  is_Some (h !! model) ->
  exists b, heap (snd (evaluate E model ld f ml v2 (start h g)))
            = alter (set_training b) model h.
Proof.
  intros Hm.
  pose proof (wp_run _ _ _ _ (evaluate_run_inv E model ld f ml v2 h g Hm)) as H.
  fold (start h g) in H.
  destruct (fst (evaluate E model ld f ml v2 (start h g))) as [v|e|].
  - exists true. exact (proj2 (proj2 (proj2 H))).
  - destruct H as (_ & _ & _ & [[_ Hh]|[_ Hh]]); eexists; exact Hh.
  - exists true. exact (proj2 (proj2 (proj2 H))).
Qed.

(** ** C5 *)

(** C5, counterexample.  The held-out loader that [main] builds yields
    ten-field batches; [evaluate] fails to unpack the first one and leaves the
    model in inference mode. *)
Lemma evaluate_error_leaves_eval_mode :
  let r := evaluate sample_env 5%nat para_dev_loader "dev_eval.json" 15 true
             (start sample_heap true) in
  fst r = Raise (ValueError "too many values to unpack (expected 7)") /\
  is_training (start sample_heap true) 5%nat = true /\
  ~ is_training (snd r) 5%nat = true.
Proof. vm_compute. split; [reflexivity | split; [reflexivity | discriminate]]. Qed.

(** C5, amended.  A call of [evaluate] on an existing module runs every
    forward pass with the module in inference mode and gradient tracking off,
    and leaves gradient tracking as it found it.  When the call returns, the
    module is in training mode; when an exception leaves it before
    [model.train()] is reached, the module stays in inference mode. *)
Theorem evaluate_modes E model ld f ml v2 (h : gmap nat module_st) (g : bool) :
  is_Some (h !! model) ->
  let r := evaluate E model ld f ml v2 (start h g) in
  (forall m xs tr gr, Forward m xs tr gr ∈ trace (snd r) ->
     m = model /\ tr = false /\ gr = false) /\
  grad_enabled (snd r) = g /\
  (forall v, fst r = Ok v -> is_training (snd r) model = true) /\
  (forall e, fst r = Raise e -> SetMode model true ∉ trace (snd r) ->
     is_training (snd r) model = false).
Proof.
  intros Hm r.
  pose proof (wp_run _ _ _ _ (evaluate_run_inv E model ld f ml v2 h g Hm)) as H.
  fold (start h g) in H. fold r in H.
  assert (Ha : Forall (eval_allowed model) (trace (snd r)))
    by (destruct (fst r); exact (proj1 H)).
  assert (Hg : grad_enabled (snd r) = g)
    by (destruct (fst r); exact (proj1 (proj2 H))).
  split; [ | split; [exact Hg | split]].
  - intros m xs tr gr Hin. rewrite Forall_forall in Ha. exact (Ha _ Hin).
  - intros v Hv. rewrite Hv in H. destruct H as (_ & _ & _ & Hh).
    exact (is_training_alter true model h _ Hm Hh).
  - intros e He Hn. rewrite He in H. destruct H as (_ & _ & _ & [[_ Hh]|[Hin _]]).
    + exact (is_training_alter false model h _ Hm Hh).
    + contradiction.
Qed.

Lemma evaluate_modes_witness :
  is_Some (sample_heap !! 5%nat) /\
  let r := evaluate sample_env 5%nat squad_loader "dev_eval.json" 15 true
             (start sample_heap true) in
  (forall m xs tr gr, Forward m xs tr gr ∈ trace (snd r) ->
     m = 5%nat /\ tr = false /\ gr = false) /\
  grad_enabled (snd r) = true /\
  (forall v, fst r = Ok v -> is_training (snd r) 5%nat = true) /\
  (forall e, fst r = Raise e -> SetMode 5%nat true ∉ trace (snd r) ->
     is_training (snd r) 5%nat = false).
Proof.
  assert (Hm : is_Some (sample_heap !! 5%nat)) by (eexists; reflexivity).
  split; [exact Hm | ].
  exact (evaluate_modes sample_env 5%nat squad_loader "dev_eval.json" 15 true
           sample_heap true Hm).
Defined.

(** ** C7 *)

(** C7, counterexample.  In a full training run on the sample inputs the
    paraphraser's forward pass is fed three batch fields moved to the device,
    none of which comes out of the BiDAF model; the BiDAF model is never
    called. *)
Lemma paraphraser_fed_raw_batch :
  let t := trace (snd (main sample_env (sample_args false (Some "best.pth.tar") 2)
                         3 initial_world)) in
  let xs := [ToDevice (Field "qphr_idxs" [2; 1]%nat);
             ToDevice (Field "qphr_types" [2; 1]%nat);
             ToDevice (Field "cphr_idxs" [2; 1]%nat)] in
  In (Forward paraphaser_model xs true true) t /\
  existsb (derived_from bidaf_model) xs = false /\
  existsb (fun e => match e with
                    | Forward m _ _ _ => (m =? bidaf_model)%nat
                    | _ => false
                    end) t = false.
Proof.
  vm_compute. split; [ | split; reflexivity].
  repeat first [left; reflexivity | right].
Qed.

(** C7, amended.  Every forward pass that [main] runs is the paraphraser's,
    on the batch's [qphr_idxs], [qphr_types] and [cphr_idxs] moved to the
    device; its inputs contain no output of the BiDAF model. *)
Theorem paraphraser_inputs E a fuel (m : nat) (xs : list sym) (tr gr : bool) :
  Forward m xs tr gr ∈ trace (snd (main E a fuel initial_world)) ->
  m = paraphaser_model /\
  (exists rows, xs = [ToDevice (Field "qphr_idxs" rows);
                      ToDevice (Field "qphr_types" rows);
                      ToDevice (Field "cphr_idxs" rows)]) /\
  existsb (derived_from bidaf_model) xs = false.
Proof.
  intros Hin. destruct (main_events E a fuel _ Hin) as [Hm [rows Hxs]].
  split; [exact Hm | split; [exists rows; exact Hxs | ]].
  rewrite Hxs. reflexivity.
Qed.

Lemma paraphraser_inputs_witness :
  let xs := [ToDevice (Field "qphr_idxs" [2; 1]%nat);
             ToDevice (Field "qphr_types" [2; 1]%nat);
             ToDevice (Field "cphr_idxs" [2; 1]%nat)] in
  Forward paraphaser_model xs true true
    ∈ trace (snd (main sample_env (sample_args true None 2) 3 initial_world)) /\
  (paraphaser_model = paraphaser_model /\
   (exists rows, xs = [ToDevice (Field "qphr_idxs" rows);
                       ToDevice (Field "qphr_types" rows);
                       ToDevice (Field "cphr_idxs" rows)]) /\
   existsb (derived_from bidaf_model) xs = false).
Proof.
  intros xs.
  assert (Hin : Forward paraphaser_model xs true true
                  ∈ trace (snd (main sample_env (sample_args true None 2) 3
                                  initial_world))).
  { apply list_elem_of_In. vm_compute. repeat first [left; reflexivity | right]. }
  split; [exact Hin | ].
  exact (paraphraser_inputs sample_env (sample_args true None 2) 3 _ _ _ _ Hin).
Defined.

(** ** C8 *)

(** C8. The BiDAF model is frozen: in every run of [main], once the
    checkpoint is loaded the module holds the checkpoint's parameters at the
    end of the run; the module is registered with no optimizer; the run makes
    no backward pass, no gradient clipping and no call on an optimizer; and
    [evaluate] changes no module's parameters or registrations. *)
Theorem bidaf_is_frozen E a fuel :
  let w := snd (main E a fuel initial_world) in
  (forall p, Loaded p ∈ trace w ->
     exists st, heap w !! bidaf_model = Some st /\
                params st = checkpoint_params E p) /\
  (forall st, heap w !! bidaf_model = Some st -> registered st = []) /\
  (forall l, Backward l ∉ trace w) /\
  (forall m, ClipGradNorm m ∉ trace w) /\
  (forall o meth, Method o meth ∉ trace w) /\
  (forall E' model ld f ml v2 (h : gmap nat module_st) g k,
     is_Some (h !! model) ->
     let w' := snd (evaluate E' model ld f ml v2 (start h g)) in
     params <$> (heap w' !! k) = params <$> (h !! k) /\
     registered <$> (heap w' !! k) = registered <$> (h !! k)).
Proof.
  intros w. repeat split.
  - intros p Hin. apply (main_events E a fuel) in Hin.
    destruct Hin as (_ & _ & _ & Hst). exact Hst.
  - destruct (main_always E a fuel) as (n & _ & _ & Hu & _). exact Hu.
  - intros l Hin. exact (main_events E a fuel _ Hin).
  - intros m Hin. exact (main_events E a fuel _ Hin).
  - intros o meth Hin. exact (main_events E a fuel _ Hin).
  - destruct (evaluate_heap E' model ld f ml v2 h g H) as [b ->].
    apply alter_training_params.
  - destruct (evaluate_heap E' model ld f ml v2 h g H) as [b ->].
    apply alter_training_params.
Qed.

Lemma bidaf_is_frozen_witness :
  let w := snd (main sample_env (sample_args false (Some "best.pth.tar") 2) 3
                  initial_world) in
  Loaded "best.pth.tar" ∈ trace w /\
  exists st, heap w !! bidaf_model = Some st /\
             params st = checkpoint_params sample_env "best.pth.tar".
Proof.
  intros w.
  assert (Hin : Loaded "best.pth.tar" ∈ trace w).
  { apply list_elem_of_In. vm_compute. repeat first [left; reflexivity | right]. }
  split; [exact Hin | ].
  exact (proj1 (bidaf_is_frozen sample_env
                  (sample_args false (Some "best.pth.tar") 2) 3) _ Hin).
Defined.

(** ** C1 *)

Lemma main_outcome E a fuel :
  let r := main E a fuel initial_world in
  match fst r with
  | Raise e => raised_here e (trace (snd r))
  | _ => clean (trace (snd r))
  end.
Proof.
  intros r. pose proof (wp_run _ _ _ _ (main_run_inv E a fuel)) as H. fold r in H.
  destruct (fst r) as [[]|e|]; exact (proj2 H).
Qed.

Lemma evaluate_outcome E model ld f ml v2 (h : gmap nat module_st) (g : bool) :
  is_Some (h !! model) ->
  let r := evaluate E model ld f ml v2 (start h g) in
  match fst r with
  | Raise e => raised_here e (trace (snd r))
  | _ => clean (trace (snd r))
  end.
Proof.
  intros Hm r.
  pose proof (wp_run _ _ _ _ (evaluate_run_inv E model ld f ml v2 h g Hm)) as H.
  fold (start h g) in H. fold r in H.
  destruct (fst r) as [v|e|]; exact (proj1 (proj2 (proj2 H))).
Qed.

(** C1. When [load_path] is empty and [short_test] is off, and the calls
    before the check return, [main] logs the message and ends with
    [SystemExit(1)]: the run consists of the set-up of lines 32-55, the log
    line and the exit, so no Paraphraser and no dataset is built and no epoch
    starts.  This is the only place where a run exits by itself: an [Exit]
    occurs in a run of [main] only with status 1 and under these two
    conditions.  Nothing is caught or translated: a run of [main] or
    [evaluate] in which a call fails ends with that call's exception as its
    last event, and a run that ends otherwise has seen no call fail. *)
Theorem exit_without_checkpoint E a fuel :
  short_test a = false ->
  truthy (load_path a) = false ->
  returns E before_check ->
  main E a fuel initial_world
  = (Raise (SystemExit 1),
     {| trace := setup_trace a ++ [Log no_bidaf_message; Exit 1];
        grad_enabled := true;
        heap := <[bidaf_model := fresh_module "BiDAF"]> ∅ |}) /\
  (forall E' a' fuel' c,
     Exit c ∈ trace (snd (main E' a' fuel' initial_world)) ->
     c = 1 /\ short_test a' = false /\ truthy (load_path a') = false) /\
  (forall E' a' fuel',
     let r := main E' a' fuel' initial_world in
     match fst r with
     | Raise e => raised_here e (trace (snd r))
     | _ => clean (trace (snd r))
     end) /\
  (forall E' model ld f ml v2 (h : gmap nat module_st) g,
     is_Some (h !! model) ->
     let r := evaluate E' model ld f ml v2 (start h g) in
     match fst r with
     | Raise e => raised_here e (trace (snd r))
     | _ => clean (trace (snd r))
     end).
Proof.
  intros Hs Ht Hr. split; [ | split; [ | split]].
  - unfold main. rewrite Hs, Ht. cbn [negb].
    repeat run_step Hr. reflexivity.
  - intros E' a' fuel' c Hin. exact (main_events E' a' fuel' _ Hin).
  - exact main_outcome.
  - exact evaluate_outcome.
Qed.

Lemma exit_without_checkpoint_witness :
  short_test (sample_args false None 2) = false /\
  truthy (load_path (sample_args false None 2)) = false /\
  returns sample_env before_check /\
  main sample_env (sample_args false None 2) 3 initial_world
  = (Raise (SystemExit 1),
     {| trace := setup_trace (sample_args false None 2)
                 ++ [Log no_bidaf_message; Exit 1];
        grad_enabled := true;
        heap := <[bidaf_model := fresh_module "BiDAF"]> ∅ |}).
Proof.
  assert (Hr : returns sample_env before_check) by (intros s n _; reflexivity).
  split; [reflexivity | split; [reflexivity | split; [exact Hr | ]]].
  exact (proj1 (exit_without_checkpoint sample_env (sample_args false None 2) 3
                  eq_refl eq_refl Hr)).
Defined.

(** ** C2 and C6 *)

(** C2. On the sample inputs, in full training mode, the first batch gets as
    far as the printing; the next line reads the name [optimizer], which the
    module never binds, and the run ends in [NameError] without a loss, a
    backward pass, clipping or any optimizer, scheduler or averager call.
    No run of [main] contains such an event. *)
Theorem training_step_raises_name_error :
  (let r := main sample_env (sample_args false (Some "best.pth.tar") 2) 3
              initial_world in
   fst r = Raise (NameError "optimizer") /\
   forwards (trace (snd r)) = 1%nat /\
   existsb is_update (trace (snd r)) = false) /\
  (forall E a fuel e,
     e ∈ trace (snd (main E a fuel initial_world)) -> is_update e = false).
Proof.
  split.
  - vm_compute. repeat split; reflexivity.
  - intros E a fuel e Hin. apply main_events in Hin.
    destruct e; try reflexivity; destruct Hin.
Qed.

(** C6. On the sample inputs [eval_steps] is 1 and the first batch has two
    examples, so the evaluation would be due after it; the run ends in
    [NameError] before the counter is touched, and [evaluate] is never
    entered.  No run of [main] enters [evaluate] or calls the saver. *)
Theorem evaluation_never_invoked :
  (let a := sample_args false (Some "best.pth.tar") 2 in
   let r := main sample_env a 3 initial_world in
   eval_steps a <= 2 /\
   fst r = Raise (NameError "optimizer") /\
   existsb is_enter (trace (snd r)) = false) /\
  (forall E a fuel fn, Enter fn ∉ trace (snd (main E a fuel initial_world))) /\
  (forall E a fuel o meth, Method o meth ∉ trace (snd (main E a fuel initial_world))).
Proof.
  split; [ | split].
  - vm_compute. split; [discriminate | split; reflexivity].
  - intros E a fuel fn Hin. exact (main_events E a fuel _ Hin).
  - intros E a fuel o meth Hin. exact (main_events E a fuel _ Hin).
Qed.

(** ** C3 *)


Lemma forwards_app (t1 t2 : list event) :
  forwards (t1 ++ t2) = (forwards t1 + forwards t2)%nat.
Proof. unfold forwards. rewrite List.filter_app, length_app. reflexivity. Qed.


Lemma setup_world_counts E a :
  epochs_started (trace (setup_world E a)) = 0%nat /\
  forwards (trace (setup_world E a)) = 0%nat.
Proof.
  unfold setup_world, load_trace. cbn [trace].
  destruct (short_test a); split; reflexivity.
Qed.


Lemma sample_env_returns (sites : list site) : returns sample_env sites.
Proof. intros s n _. reflexivity. Qed.

Lemma sample_env_decodable : all_decodable sample_env.
Proof.
  intros xs p Hp. simpl in Hp. destruct Hp as [<-|[<-|[]]]; vm_compute; discriminate.
Qed.

(** *** Every run of [main]: the passes of the [while] and the exceptions *)

Ltac solve_epoch_event :=
  cbn [epoch_event]; first [ exact I | split; [reflexivity | assumption] ].

Ltac solve_epoch_trace :=
  repeat (apply Forall_snoc; [ | solve_epoch_event ]);
  first [ exact (List.Forall_nil _) | assumption ].

Ltac solve_epochs :=
  cbn [trace]; rewrite ?epochs_started_snoc; cbn [is_epoch_start];
  change (epochs_started []) with 0%nat;
  repeat match goal with H : epochs_started _ = _ |- _ => rewrite H end;
  lia.

Ltac solve_raised :=
  first [ left; eexists _, _; reflexivity
        | right; cbn [script_error]; first [exact I | reflexivity] ].

Ltac loop_leaf :=
  lazymatch goal with
  | |- loop_post _ _ (Some _) _ =>
      unfold loop_post; cbn [trace];
      split; [ solve_epoch_trace | split; [ solve_epochs | solve_raised ] ]
  end.

(** A training loader is never empty, so a pass over it yields a first
    batch. *)
Lemma wp_iter_loader_nonempty (E : env) (ld : loader)
    (Q : list (list sym) -> world -> Prop) X w :
  dataset ld <> [] ->
  (forall rows bs, Q (collate_fn ld rows :: bs) w) ->
  wp (iter_loader E ld) Q X w.
Proof.
  intros Hds H. unfold wp, iter_loader. cbv zeta.
  destruct (chunks_from_nonempty (per_batch ld)
              (if shuffle ld then shuffled (rnd E (length (trace w))) (dataset ld)
               else dataset ld) [])
    as (c & cs & -> & _).
  { right. destruct (shuffle ld); [apply shuffled_nonempty | ]; exact Hds. }
  cbn [map]. apply H.
Qed.

Lemma print_paraphrased_post E a (ps : list (list Z)) (w : world) :
  Forall (epoch_event a) (trace w) ->
  epochs_started (trace w) = 1%nat ->
  wp (print_paraphrased E ps)
     (fun _ w' => Forall (epoch_event a) (trace w') /\
                  epochs_started (trace w') = 1%nat)
     (loop_post a 1) w.
Proof.
  revert w. induction ps as [|p ps IH]; intros w Ht He; simpl.
  - apply wp_ret. split; assumption.
  - wp_step. wp_step; [loop_leaf | ]. wp_step.
    destruct (squeeze (List.filter (fun x => negb (x =? 0)) p)) as [x|ws];
      cbn [iter_tensor]; wp_step; [loop_leaf | ].
    wp_step. unfold wp at 1.
    pose proof (lookup_words_run (idx2word E) ws
                  {| trace := trace w ++ [Called NonZero];
                     grad_enabled := grad_enabled w; heap := heap w |}) as Hrun.
    destruct (words_of (idx2word E) ws) as [l|].
    + rewrite Hrun. wp_step. wp_step. apply IH; [solve_epoch_trace | solve_epochs].
    + destruct Hrun as [k ->]. loop_leaf.
Qed.

(** The first batch of a pass ends the run: by the [return] of a short test,
    or by an exception. *)
Lemma train_batch_post E a dl ep rows st (w : world) :
  Forall (epoch_event a) (trace w) ->
  epochs_started (trace w) = 1%nat ->
  wp (train_batch E a dl ep (collate_fn_para rows) st)
     (fun r w' => match r with
                  | (Some _, _) => loop_done a w'
                  | (None, _) => False
                  end) (loop_post a 1) w.
Proof.
  intros Ht He.
  cbn [collate_fn_para map para_fields train_batch].
  repeat wp_step; try (loop_leaf; fail).
  eapply wp_mono;
    [ apply (print_paraphrased_post E a); [solve_epoch_trace | solve_epochs]
    | | auto ].
  intros ? w' [Ht' He']. cbv beta. repeat wp_step.
  - split; [exact Ht' | right; split; assumption].
  - rewrite train_step_raises. wp_step. loop_leaf.
Qed.

Lemma train_epoch_post E a tl dl ep st (w : world) :
  collate_fn tl = collate_fn_para ->
  dataset tl <> [] ->
  Forall (epoch_event a) (trace w) ->
  epochs_started (trace w) = 1%nat ->
  wp (train_epoch E a tl dl ep st)
     (fun r w' => match r with
                  | (Some _, _) => loop_done a w'
                  | (None, _) => False
                  end) (loop_post a 1) w.
Proof.
  intros Hcol Hds Ht He. unfold train_epoch. wp_step. wp_step.
  apply wp_with_grad. wp_step.
  apply wp_iter_loader_nonempty; [exact Hds | ]. intros rows bs.
  rewrite Hcol. cbn [for_each]. wp_step.
  eapply wp_mono;
    [ apply (train_batch_post E a); [solve_epoch_trace | solve_epochs] | | ].
  - intros [[v|] s'] w' H; cbv beta; [apply wp_ret; exact H | destruct H].
  - intros x w' H. exact H.
Qed.

Lemma training_loop_post E a tl dl fuel st (w : world) :
  collate_fn tl = collate_fn_para ->
  dataset tl <> [] ->
  Forall (epoch_event a) (trace w) ->
  epochs_started (trace w) = 0%nat ->
  wp (epoch_loop (train_epoch E a tl dl) (num_epochs a) fuel 0 st)
     (fun _ => loop_done a) (loop_post a fuel) w.
Proof.
  intros Hcol Hds Ht He.
  assert (Hzero : 0 = num_epochs a -> loop_done a w).
  { intros Heq. split; [exact Ht | left; split; [exact He | congruence]]. }
  destruct fuel as [|fuel]; cbn [epoch_loop];
    destruct (Z.eqb_spec 0 (num_epochs a)) as [Heq|Hne];
    try (apply wp_ret; exact (Hzero Heq)).
  - unfold wp, out_of_fuel. split; [exact Ht | split; [lia | reflexivity]].
  - assert (Hn : num_epochs a <> 0) by congruence.
    wp_step. wp_step. wp_step.
    eapply wp_mono;
      [ apply (train_epoch_post E a tl dl); [exact Hcol | exact Hds | | ] | | ].
    + solve_epoch_trace.
    + solve_epochs.
    + intros [[v|] s'] w' H; cbv beta; [apply wp_ret; exact H | destruct H].
    + intros [e|] w' (Ht' & He' & H); (split; [exact Ht' | split; [exact He' | ]]).
      * exact H.
      * discriminate.
Qed.

Lemma main_run_loop E a fuel :
  wp (main E a fuel) (fun _ => loop_done a) (loop_post a fuel) initial_world.
Proof.
  unfold main.
  repeat wp_step; try (loop_leaf; fail).
  all: unfold floordiv; wp_step; wp_step;
    [ exfalso;
      repeat match goal with
             | H : Z.eqb _ _ = true |- _ => apply Z.eqb_eq in H
             | H : (true && _) = false |- _ => cbn [andb] in H
             | H : Nat.eqb _ _ = false |- _ => apply Nat.eqb_neq in H
             end; lia
    | ].
  all: rewrite Zdiv_0_l; apply training_loop_post;
    [ reflexivity
    | cbn [dataset]; intros Hnil;
      match goal with
      | H : (true && _) = false |- _ => rewrite Hnil in H; discriminate H
      end
    | solve_epoch_trace
    | solve_epochs ].
Qed.




(** ** C9 *)

Lemma run_fail_at {A B} (s : site) (e : exn) (k : A -> M B) (w : world) :
  bind (fail_at s e) k w = (Raise e, snoc w (Failed s e)).
Proof. reflexivity. Qed.

(** C9, counterexample.  On the sample inputs with no training record, the
    run fails with [ValueError] when the training loader is built (line 79),
    not with a division by zero: line 110 is not reached. *)
Lemma empty_training_set_fails_at_loader :
  let r := main empty_env (sample_args true None 2) 3 initial_world in
  fst r = Raise (ValueError no_samples_message) /\
  fst r <> Raise ZeroDivisionError /\
  last (trace (snd r))
  = Some (Failed MkTrainLoader (ValueError no_samples_message)) /\
  ~ In (Log "Training...") (trace (snd r)).
Proof.
  split; [vm_compute; reflexivity | split; [vm_compute; discriminate | split]].
  - vm_compute. reflexivity.
  - vm_compute. intros H.
    repeat (destruct H as [H|H]; [discriminate H | ]). exact H.
Qed.

(** C9, amended.  [main] requires a training set that is not empty, and it
    is the construction of the training loader that enforces it.  When the
    calls of the set-up return and the run gets past the check of
    [load_path]: with an empty training set the training loader, built with
    [shuffle=True], is refused with [ValueError] at line 79, before any epoch
    starts; with a non-empty one and a positive batch size the division at
    line 110 yields 0 and the loop over epochs is entered with the counter at
    0.  So line 110 never divides by zero: a run ends in [ZeroDivisionError]
    only when that is what a framework call raised. *)
Theorem empty_training_set_rejected_by_loader E a fuel :
  let r := main E a fuel initial_world in
  (fst r = Raise ZeroDivisionError ->
   exists s t, trace (snd r) = (t ++ [Failed s ZeroDivisionError])%list) /\
  (returns E setup_sites ->
   short_test a = true \/ truthy (load_path a) = true ->
   train_records E = [] ->
   r = (Raise (ValueError no_samples_message),
        {| trace := setup_trace a ++ load_trace a
                    ++ [Called MkParaphraser;
                        Built "Paraphraser"
                          (if short_test a then 5 else hidden_size a);
                        Log "Building dataset..."; Called MkTrainDataset;
                        Failed MkTrainLoader (ValueError no_samples_message)];
           grad_enabled := true;
           heap := setup_heap E a |}) /\
   epochs_started (trace (snd r)) = 0%nat) /\
  (returns E setup_sites ->
   short_test a = true \/ truthy (load_path a) = true ->
   0 < batch_size a ->
   train_records E <> [] ->
   floordiv 0 (Z.of_nat (length (train_records E))) = ret 0 /\
   r = epoch_loop (train_epoch E a (training_loader E a) (held_out_loader E a))
                  (num_epochs a) fuel 0 (0, eval_steps a) (setup_world E a) /\
   epochs_started (trace (setup_world E a)) = 0%nat).
Proof.
  intros r. split; [ | split].
  - intros Hz.
    pose proof (wp_run _ _ _ _ (main_run_loop E a fuel)) as H. fold r in H.
    rewrite Hz in H. destruct H as (_ & _ & [H|H]); [exact H | destruct H].
  - intros Hr Hmode Hempty.
    assert (Hrun : r = (Raise (ValueError no_samples_message),
        {| trace := setup_trace a ++ load_trace a
                    ++ [Called MkParaphraser;
                        Built "Paraphraser"
                          (if short_test a then 5 else hidden_size a);
                        Log "Building dataset..."; Called MkTrainDataset;
                        Failed MkTrainLoader (ValueError no_samples_message)];
           grad_enabled := true;
           heap := setup_heap E a |})).
    { unfold r, main, DataLoader. rewrite Hempty. cbn [length Nat.eqb andb].
      unfold setup_heap, load_trace.
      destruct (short_test a) eqn:Hs.
      - repeat first [rewrite run_fail_at | run_step Hr]. reflexivity.
      - destruct Hmode as [Hm|Hm]; [discriminate | ]. rewrite Hm. cbn [negb].
        unfold set_mode. repeat first [rewrite run_fail_at | run_step Hr].
        reflexivity. }
    split; [exact Hrun | ]. rewrite Hrun. cbn [snd trace].
    unfold load_trace. destruct (short_test a); reflexivity.
  - intros Hr Hmode Hb Hne.
    assert (Hlen : Z.of_nat (length (train_records E)) <> 0)
      by (destruct (train_records E); [congruence | discriminate]).
    split; [ | split].
    + unfold floordiv. destruct (Z.eqb_spec (Z.of_nat (length (train_records E))) 0);
        [contradiction | ].
      rewrite Z.div_0_l by exact Hlen. reflexivity.
    + unfold r. rewrite (main_setup_run E a fuel Hr Hmode Hb Hne).
      apply floordiv_zero_run. exact Hlen.
    + exact (proj1 (setup_world_counts E a)).
Qed.

Lemma empty_training_set_rejected_by_loader_witness :
  returns empty_env setup_sites /\
  (short_test (sample_args true None 2) = true \/
   truthy (load_path (sample_args true None 2)) = true) /\
  train_records empty_env = [] /\
  fst (main empty_env (sample_args true None 2) 3 initial_world)
  = Raise (ValueError no_samples_message).
Proof.
  assert (Hr : returns empty_env setup_sites) by (intros s n _; reflexivity).
  split; [exact Hr | split; [left; reflexivity | split; [reflexivity | ]]].
  rewrite (proj1 (proj1 (proj2 (empty_training_set_rejected_by_loader empty_env
                                  (sample_args true None 2) 3))
                    Hr (or_introl eq_refl) eq_refl)).
  reflexivity.
Defined.

(** ** C10 *)




(** * Further properties *)

(** ** [evaluate], batch by batch *)

Lemma eval_batch_run E model ml v2 (batch : list sym) st (w : world) :
  length batch = 7%nat ->
  returns E eval_sites ->
  is_training w model = false ->
  grad_enabled w = false ->
  eval_batch E model ml v2 batch st w
  = (Ok (None, eval_batch_state E model ml v2 st batch),
     {| trace := trace w ++ eval_batch_trace model batch;
        grad_enabled := grad_enabled w; heap := heap w |}).
Proof.
  intros Hlen Hr Ht Hg.
  destruct batch as [|cw [|cc [|qw [|qc [|y1 [|y2 [|ids [|? ?]]]]]]]];
    try discriminate.
  assert (Hf : forall t g,
             is_training {| trace := t; grad_enabled := g; heap := heap w |} model
             = false) by (intros; exact Ht).
  unfold eval_batch, to_device, forward, nll_loss_sum.
  repeat run_step Hr. rewrite Hf, Hg. repeat run_step Hr.
  unfold ret. cbn [eval_batch_trace eval_batch_state fst snd].
  unfold batch_loss, batch_preds. rewrite <- !app_assoc. reflexivity.
Qed.

Lemma eval_batches_run E model ml v2 (bs : list (list sym)) st (w : world) :
  Forall (fun b => length b = 7%nat) bs ->
  returns E eval_sites ->
  is_training w model = false ->
  grad_enabled w = false ->
  for_each bs (eval_batch E model ml v2) st w
  = (Ok (None, eval_states E model ml v2 bs st),
     {| trace := trace w ++ flat_map (eval_batch_trace model) bs;
        grad_enabled := grad_enabled w; heap := heap w |}).
Proof.
  intros Hbs Hr. revert st w.
  induction Hbs as [|b bs Hb _ IH]; intros st w Ht Hg; simpl.
  - rewrite app_nil_r, world_eta. reflexivity.
  - unfold bind. rewrite (eval_batch_run E model ml v2 b st w Hb Hr Ht Hg).
    rewrite IH by assumption. cbn [trace grad_enabled heap].
    rewrite <- app_assoc. reflexivity.
Qed.

(** [evaluate] up to line 242, when its calls return and every batch has
    seven fields: what is left to do is the look-up of the metrics. *)
Lemma evaluate_loop_run E model ld f ml v2 (h : gmap nat module_st) (g : bool) :
  is_Some (h !! model) ->
  returns E eval_sites ->
  Forall (fun b => length b = 7%nat) (loader_batches E ld 4) ->
  let st := eval_states E model ml v2 (loader_batches E ld 4) ([], ∅) in
  let results := eval_dicts E (snd st) v2 in
  evaluate E model ld f ml v2 (start h g)
  = (f1 <- subscript results "F1" ;;
     em <- subscript results "EM" ;;
     results_list <- (if v2
                      then avna <- subscript results "AvNA" ;;
                           ret ([("NLL", Apply "avg" (fst st)); ("F1", f1);
                                 ("EM", em)] ++ [("AvNA", avna)])%list
                      else ret [("NLL", Apply "avg" (fst st)); ("F1", f1);
                                ("EM", em)]) ;;
     ret (OrderedDict results_list, snd st))
      {| trace := [Enter "evaluate"; SetMode model false; Called OpenEvalFile;
                   Called JsonLoad]
                  ++ flat_map (eval_batch_trace model) (loader_batches E ld 4)
                  ++ [SetMode model true; Called EvalDicts];
         grad_enabled := g;
         heap := alter (set_training true) model h |}.
Proof.
  intros Hm Hr Hbs st results. unfold evaluate, set_mode, start.
  do 6 run_step Hr.
  unfold bind at 1. unfold with_grad. cbn [trace grad_enabled heap].
  unfold bind at 1. unfold iter_loader at 1. cbn [trace length app].
  fold (loader_batches E ld 4).
  rewrite (eval_batches_run E model ml v2 (loader_batches E ld 4) ([], ∅) _ Hbs Hr);
    [ | apply (is_training_alter false model h); [exact Hm | reflexivity]
      | reflexivity ].
  cbn [trace grad_enabled heap fst snd].
  do 4 run_step Hr. rewrite alter_twice.
  fold st. fold results. cbn [app]. rewrite <- !app_assoc. reflexivity.
Qed.

Lemma eval_batch_trace_forwards model (bs : list (list sym)) :
  Forall (fun b => length b = 7%nat) bs ->
  forwards (flat_map (eval_batch_trace model) bs) = length bs.
Proof.
  induction 1 as [|b bs Hb _ IH]; [reflexivity | ].
  cbn [flat_map length]. rewrite forwards_app, IH.
  destruct b as [|cw [|cc [|qw [|qc [|y1 [|y2 [|ids [|? ?]]]]]]]];
    try discriminate. reflexivity.
Qed.

Lemma eval_states_updates E model ml v2 (bs : list (list sym)) st :
  Forall (fun b => length b = 7%nat) bs ->
  length (fst (eval_states E model ml v2 bs st)) = (length (fst st) + length bs)%nat.
Proof.
  intros Hbs. revert st. induction Hbs as [|b bs Hb _ IH]; intros st.
  - simpl. lia.
  - unfold eval_states in *. cbn [fold_left]. rewrite IH.
    destruct b as [|cw [|cc [|qw [|qc [|y1 [|y2 [|ids [|? ?]]]]]]]];
      try discriminate.
    cbn [eval_batch_state fst length]. rewrite length_app. simpl. lia.
Qed.

(** [evaluate] returns: when its calls return, every batch of the loader has
    seven fields and [util.eval_dicts] reports the metrics, the call runs the
    model once per batch, gives [nll_meter] one update per batch, returns the
    metrics in order with the predictions gathered over the batches, and
    leaves the model in training mode and gradient tracking as it was. *)
Theorem evaluate_returns E model ld f ml v2 (h : gmap nat module_st) (g : bool)
    (f1 em : sym) :
  is_Some (h !! model) ->
  returns E eval_sites ->
  Forall (fun b => length b = 7%nat) (loader_batches E ld 4) ->
  let st := eval_states E model ml v2 (loader_batches E ld 4) ([], ∅) in
  let results := eval_dicts E (snd st) v2 in
  results !! "F1" = Some f1 ->
  results !! "EM" = Some em ->
  (v2 = true -> is_Some (results !! "AvNA")) ->
  exists rest w',
    evaluate E model ld f ml v2 (start h g)
    = (Ok (("NLL", Apply "avg" (fst st)) :: ("F1", f1) :: ("EM", em) :: rest,
           snd st), w') /\
    keys rest = (if v2 then ["AvNA"] else []) /\
    length (fst st) = length (loader_batches E ld 4) /\
    forwards (trace w') = length (loader_batches E ld 4) /\
    is_training w' model = true /\
    grad_enabled w' = g.
Proof.
  intros Hm Hr Hbs st results Hf1 Hem Hav.
  rewrite (evaluate_loop_run E model ld f ml v2 h g Hm Hr Hbs).
  fold st. fold results. unfold bind, subscript. rewrite Hf1, Hem.
  assert (Hlen : length (fst st) = length (loader_batches E ld 4)).
  { unfold st. rewrite eval_states_updates by exact Hbs. reflexivity. }
  assert (Hfw : forwards
                  ([Enter "evaluate"; SetMode model false; Called OpenEvalFile;
                    Called JsonLoad]
                   ++ flat_map (eval_batch_trace model) (loader_batches E ld 4)
                   ++ [SetMode model true; Called EvalDicts])
                = length (loader_batches E ld 4)).
  { rewrite !forwards_app, eval_batch_trace_forwards by exact Hbs.
    change (forwards [Enter "evaluate"; SetMode model false; Called OpenEvalFile;
                      Called JsonLoad]) with 0%nat.
    change (forwards [SetMode model true; Called EvalDicts]) with 0%nat. lia. }
  destruct v2.
  - destruct (Hav eq_refl) as [av Hav']. rewrite Hav'.
    eexists [("AvNA", av)], _. split; [reflexivity | ].
    cbn [snd trace grad_enabled].
    repeat split; try assumption; try reflexivity.
    apply (is_training_alter true model h); [exact Hm | reflexivity].
  - eexists [], _. split; [reflexivity | ].
    cbn [snd trace grad_enabled].
    repeat split; try assumption; try reflexivity.
    apply (is_training_alter true model h); [exact Hm | reflexivity].
Qed.

Lemma squad_batches_seven E n :
  Forall (fun b => length b = 7%nat) (loader_batches E squad_loader n).
Proof. repeat constructor. Qed.

Lemma evaluate_returns_witness :
  exists rest w',
    evaluate sample_env 5%nat squad_loader "dev_eval.json" 15 true
             (start sample_heap true)
    = (Ok (("NLL",
            Apply "avg"
              (fst (eval_states sample_env 5%nat 15 true
                      (loader_batches sample_env squad_loader 4) ([], ∅))))
           :: ("F1", Num 1) :: ("EM", Num 2) :: rest,
           snd (eval_states sample_env 5%nat 15 true
                  (loader_batches sample_env squad_loader 4) ([], ∅))), w') /\
    keys rest = ["AvNA"] /\
    forwards (trace w') = 2%nat.
Proof.
  destruct (evaluate_returns sample_env 5%nat squad_loader "dev_eval.json" 15 true
              sample_heap true (Num 1) (Num 2))
    as (rest & w' & Hrun & Hk & _ & Hfw & _).
  - eexists. reflexivity.
  - apply sample_env_returns.
  - apply squad_batches_seven.
  - reflexivity.
  - reflexivity.
  - intros _. eexists. reflexivity.
  - exists rest, w'. split; [exact Hrun | split; [exact Hk | exact Hfw]].
Defined.

(** A metric missing from what [util.eval_dicts] reports: [evaluate] raises
    [KeyError] for the first of F1, EM and (with SQuAD v2) AvNA that is
    missing, after every batch has been processed and with the model already
    back in training mode. *)
Theorem evaluate_missing_metric E model ld f ml v2 (h : gmap nat module_st) (g : bool) :
  is_Some (h !! model) ->
  returns E eval_sites ->
  Forall (fun b => length b = 7%nat) (loader_batches E ld 4) ->
  let st := eval_states E model ml v2 (loader_batches E ld 4) ([], ∅) in
  let results := eval_dicts E (snd st) v2 in
  let r := evaluate E model ld f ml v2 (start h g) in
  (results !! "F1" = None -> fst r = Raise (KeyError "F1")) /\
  (is_Some (results !! "F1") -> results !! "EM" = None ->
   fst r = Raise (KeyError "EM")) /\
  (is_Some (results !! "F1") -> is_Some (results !! "EM") -> v2 = true ->
   results !! "AvNA" = None -> fst r = Raise (KeyError "AvNA")) /\
  (forall k, fst r = Raise (KeyError k) ->
     is_training (snd r) model = true /\
     forwards (trace (snd r)) = length (loader_batches E ld 4)).
Proof.
  intros Hm Hr Hbs st results r. unfold r.
  rewrite (evaluate_loop_run E model ld f ml v2 h g Hm Hr Hbs).
  fold st. fold results. unfold bind, subscript.
  assert (Hfw : forwards
                  ([Enter "evaluate"; SetMode model false; Called OpenEvalFile;
                    Called JsonLoad]
                   ++ flat_map (eval_batch_trace model) (loader_batches E ld 4)
                   ++ [SetMode model true; Called EvalDicts])
                = length (loader_batches E ld 4)).
  { rewrite !forwards_app, eval_batch_trace_forwards by exact Hbs.
    change (forwards [Enter "evaluate"; SetMode model false; Called OpenEvalFile;
                      Called JsonLoad]) with 0%nat.
    change (forwards [SetMode model true; Called EvalDicts]) with 0%nat. lia. }
  assert (Ht : is_training
                 {| trace := [Enter "evaluate"; SetMode model false;
                              Called OpenEvalFile; Called JsonLoad]
                             ++ flat_map (eval_batch_trace model)
                                  (loader_batches E ld 4)
                             ++ [SetMode model true; Called EvalDicts];
                    grad_enabled := g;
                    heap := alter (set_training true) model h |} model = true)
    by (apply (is_training_alter true model h); [exact Hm | reflexivity]).
  split; [ | split; [ | split]].
  - intros ->. reflexivity.
  - intros [f1 ->] ->. reflexivity.
  - intros [f1 ->] [em ->] -> ->. reflexivity.
  - intros k.
    destruct (results !! "F1") as [f1|]; [ | intros _; split; [exact Ht | exact Hfw]].
    destruct (results !! "EM") as [em|]; [ | intros _; split; [exact Ht | exact Hfw]].
    destruct v2; [ | discriminate].
    destruct (results !! "AvNA") as [av|]; [discriminate | ].
    intros _. split; [exact Ht | exact Hfw].
Qed.

Lemma evaluate_missing_metric_witness :
  let r := evaluate no_em_env 5%nat squad_loader "dev_eval.json" 15 true
             (start sample_heap true) in
  fst r = Raise (KeyError "EM") /\
  is_training (snd r) 5%nat = true /\
  forwards (trace (snd r)) = 2%nat.
Proof.
  intros r.
  assert (Hm : is_Some (sample_heap !! 5%nat)) by (eexists; reflexivity).
  assert (Hr : returns no_em_env eval_sites) by (intros s n _; reflexivity).
  pose proof (evaluate_missing_metric no_em_env 5%nat squad_loader "dev_eval.json"
                15 true sample_heap true Hm Hr (squad_batches_seven _ _))
    as (_ & Hem & _ & Hk).
  assert (He : fst r = Raise (KeyError "EM")).
  { apply Hem; [eexists; reflexivity | reflexivity]. }
  split; [exact He | exact (Hk "EM" He)].
Defined.

Lemma eval_batch_state_preds E model ml v2 (b : list sym) st :
  length b = 7%nat ->
  snd (eval_batch_state E model ml v2 st b) = preds_of E model ml v2 b ∪ snd st.
Proof.
  intros Hb.
  destruct b as [|cw [|cc [|qw [|qc [|y1 [|y2 [|ids [|? ?]]]]]]]];
    try discriminate. reflexivity.
Qed.

Lemma eval_states_keep E model ml v2 (bs : list (list sym)) st (k : string) :
  Forall (fun b => length b = 7%nat) bs ->
  (forall b, In b bs -> preds_of E model ml v2 b !! k = None) ->
  snd (eval_states E model ml v2 bs st) !! k = snd st !! k.
Proof.
  intros Hbs. revert st. induction Hbs as [|b bs Hb _ IH]; intros st Hk.
  - reflexivity.
  - unfold eval_states in *. cbn [fold_left].
    rewrite IH by (intros b' Hb'; apply Hk; right; exact Hb').
    rewrite eval_batch_state_preds by exact Hb.
    apply lookup_union_r. apply Hk. left. reflexivity.
Qed.

(** [pred_dict.update(preds)]: in the predictions [evaluate] returns, an id
    has the answer of the last batch that predicts it, and an id that no
    batch predicts is absent. *)
Theorem evaluate_predictions E model ld f ml v2 (h : gmap nat module_st) (g : bool)
    (results : list (string * sym)) (pred_dict : gmap string string) (w' : world) :
  is_Some (h !! model) ->
  returns E eval_sites ->
  Forall (fun b => length b = 7%nat) (loader_batches E ld 4) ->
  evaluate E model ld f ml v2 (start h g) = (Ok (results, pred_dict), w') ->
  (forall bs1 b bs2 k v,
     loader_batches E ld 4 = (bs1 ++ b :: bs2)%list ->
     preds_of E model ml v2 b !! k = Some v ->
     (forall b', In b' bs2 -> preds_of E model ml v2 b' !! k = None) ->
     pred_dict !! k = Some v) /\
  (forall k,
     (forall b, In b (loader_batches E ld 4) -> preds_of E model ml v2 b !! k = None) ->
     pred_dict !! k = None).
Proof.
  intros Hm Hr Hbs Hrun.
  assert (Hpd : pred_dict
                = snd (eval_states E model ml v2 (loader_batches E ld 4) ([], ∅))).
  { rewrite (evaluate_loop_run E model ld f ml v2 h g Hm Hr Hbs) in Hrun.
    unfold bind, subscript in Hrun.
    destruct (eval_dicts E _ v2 !! "F1"); [ | discriminate].
    destruct (eval_dicts E _ v2 !! "EM"); [ | discriminate].
    destruct v2.
    - destruct (eval_dicts E _ true !! "AvNA"); [ | discriminate].
      inversion Hrun. reflexivity.
    - inversion Hrun. reflexivity. }
  split.
  - intros bs1 b bs2 k v Hsplit Hv Hlater. rewrite Hpd, Hsplit.
    rewrite Hsplit in Hbs. apply Forall_app in Hbs as [_ Hbs].
    apply Forall_cons in Hbs as [Hb Hbs2].
    unfold eval_states. rewrite fold_left_app. cbn [fold_left].
    fold (eval_states E model ml v2 bs2
            (eval_batch_state E model ml v2
               (fold_left (eval_batch_state E model ml v2) bs1 ([], ∅)) b)).
    rewrite eval_states_keep by assumption.
    rewrite eval_batch_state_preds by exact Hb.
    apply lookup_union_Some_l. exact Hv.
  - intros k Hnone. rewrite Hpd.
    rewrite eval_states_keep by assumption. apply lookup_empty.
Qed.

Lemma evaluate_predictions_witness :
  exists results pred_dict w',
    evaluate answer_env 5%nat squad_loader "dev_eval.json" 15 true
             (start sample_heap true) = (Ok (results, pred_dict), w') /\
    pred_dict !! "q1" = Some "in 1066" /\
    pred_dict !! "q2" = None.
Proof.
  destruct (evaluate answer_env 5%nat squad_loader "dev_eval.json" 15 true
              (start sample_heap true)) as [[[results pred_dict]|e|] w'] eqn:Hrun;
    try (vm_compute in Hrun; discriminate).
  assert (Hm : is_Some (sample_heap !! 5%nat)) by (eexists; reflexivity).
  assert (Hr : returns answer_env eval_sites) by (intros s n _; reflexivity).
  destruct (evaluate_predictions answer_env 5%nat squad_loader "dev_eval.json" 15
              true sample_heap true results pred_dict w' Hm Hr
              (squad_batches_seven _ _) Hrun) as [Hlast Hnone].
  exists results, pred_dict, w'. split; [reflexivity | split].
  - apply (Hlast [map (fun f => Field f [0; 1]%nat) squad_fields]
                 (map (fun f => Field f [2]%nat) squad_fields) []).
    + reflexivity.
    + reflexivity.
    + intros b' [].
  - apply Hnone. intros b Hb.
    destruct Hb as [<-|[<-|[]]]; reflexivity.
Defined.

(** ** The two loops disagree on the shape of a batch *)

(** A batch with the ten fields that the training loop unpacks (line 118) is
    rejected by the loop of [evaluate], which unpacks seven (line 213); so
    [evaluate], given the held-out loader that [main] builds with the same
    collate function as the training loader, fails on the first batch, before
    any forward pass, whenever the held-out set is not empty. *)
Theorem evaluate_rejects_training_batches :
  (forall E model ml v2 (batch : list sym) st (w : world),
     length batch = 10%nat ->
     eval_batch E model ml v2 batch st w
     = (Raise (ValueError "too many values to unpack (expected 7)"), w)) /\
  (forall E a model f ml v2 (h : gmap nat module_st) g,
     returns E [OpenEvalFile; JsonLoad] ->
     dev_records E <> [] ->
     evaluate E model (held_out_loader E a) f ml v2 (start h g)
     = (Raise (ValueError "too many values to unpack (expected 7)"),
        {| trace := [Enter "evaluate"; SetMode model false; Called OpenEvalFile;
                     Called JsonLoad];
           grad_enabled := g;
           heap := alter (set_training false) model h |})).
Proof.
  split.
  - intros E model ml v2 batch st w Hlen.
    destruct batch as [|? [|? [|? [|? [|? [|? [|? [|? [|? [|? [|? ?]]]]]]]]]]];
      try discriminate. reflexivity.
  - intros E a model f ml v2 h g Hr Hne.
    unfold evaluate, set_mode, start. do 6 run_step Hr.
    unfold bind at 1. unfold with_grad. cbn [trace grad_enabled heap].
    unfold bind at 1. unfold iter_loader at 1.
    cbn [shuffle held_out_loader dataset per_batch collate_fn].
    destruct (chunks_from_nonempty (Z.to_nat (effective_batch_size E a))
                (dev_records E) []) as (rows & cs & -> & _);
      [right; exact Hne | ].
    cbn [map for_each collate_fn_para para_fields eval_batch].
    reflexivity.
Qed.

Lemma evaluate_rejects_training_batches_witness :
  returns sample_env [OpenEvalFile; JsonLoad] /\
  dev_records sample_env <> [] /\
  fst (evaluate sample_env 5%nat
         (held_out_loader sample_env (sample_args false (Some "best.pth.tar") 2))
         "dev_eval.json" 15 true (start sample_heap true))
  = Raise (ValueError "too many values to unpack (expected 7)").
Proof.
  assert (Hr : returns sample_env [OpenEvalFile; JsonLoad])
    by apply sample_env_returns.
  assert (Hne : dev_records sample_env <> []) by discriminate.
  split; [exact Hr | split; [exact Hne | ]].
  rewrite (proj2 evaluate_rejects_training_batches sample_env
             (sample_args false (Some "best.pth.tar") 2) 5%nat "dev_eval.json" 15
             true sample_heap true Hr Hne).
  reflexivity.
Defined.

(** ** [main] in full training mode and with no epoch *)

Lemma train_batch_full E a dl ep rows st (w : world) :
  short_test a = false ->
  returns E batch_sites ->
  all_decodable E ->
  is_training w paraphaser_model = true ->
  grad_enabled w = true ->
  train_batch E a dl ep (collate_fn_para rows) st w
  = (Raise (NameError "optimizer"),
     {| trace := trace w ++ batch_trace E rows;
        grad_enabled := grad_enabled w; heap := heap w |}).
Proof.
  intros Hs Hr Hd Ht Hg.
  assert (Hf : forall t g,
             is_training {| trace := t; grad_enabled := g; heap := heap w |}
                         paraphaser_model = true) by (intros; exact Ht).
  cbn [collate_fn_para map para_fields train_batch].
  unfold to_device, forward.
  repeat run_step Hr. rewrite Hf, Hg. repeat run_step Hr.
  unfold bind at 1.
  rewrite print_paraphrased_run;
    [ | intros n; apply Hr; simpl; tauto | intros p Hp; exact (Hd _ _ Hp) ].
  rewrite Hs, train_step_raises. unfold raise. cbn [trace grad_enabled heap].
  unfold batch_trace, para_inputs. rewrite <- !app_assoc. reflexivity.
Qed.

(** Full training mode: when the calls return, every row decodes, the
    training set is not empty and at least one epoch is configured, [main]
    sets up, starts epoch 1, puts the first batch through the paraphraser,
    prints its rows, and ends in [NameError] on [optimizer]: no batch is ever
    trained on and no second batch is read. *)
Theorem training_stops_at_optimizer E a fuel :
  short_test a = false ->
  truthy (load_path a) = true ->
  returns E (setup_sites ++ batch_sites) ->
  all_decodable E ->
  0 < batch_size a ->
  train_records E <> [] ->
  num_epochs a <> 0 ->
  (0 < fuel)%nat ->
  exists rows,
    rows <> [] /\
    main E a fuel initial_world
    = (Raise (NameError "optimizer"),
       {| trace := trace (setup_world E a)
                   ++ [EpochStart 1; Log ("Starting epoch " +:+ pretty 1 +:+ "...")]
                   ++ batch_trace E rows;
          grad_enabled := true;
          heap := setup_heap E a |}).
Proof.
  intros Hs Hp Hr Hd Hb Hne Hep Hfuel.
  destruct (returns_app _ _ _ Hr) as [Hr1 Hr2].
  rewrite (main_setup_run E a fuel Hr1 (or_intror Hp) Hb Hne).
  rewrite floordiv_zero_run
    by (destruct (train_records E); [congruence | discriminate]).
  destruct fuel as [|fuel]; [lia | ]. cbn [epoch_loop].
  destruct (Z.eqb_spec 0 (num_epochs a)) as [Heq|_]; [congruence | ].
  rewrite run_emit. run_norm. unfold train_epoch.
  rewrite run_assoc, run_emit. run_norm.
  unfold bind at 1. unfold with_grad. cbn [trace grad_enabled heap].
  unfold bind at 1. unfold iter_loader at 1.
  cbn [shuffle training_loader dataset per_batch collate_fn trace].
  match goal with
  | |- context [chunks_from ?n [] (shuffled ?r (train_records E))] =>
      destruct (chunks_from_nonempty n (shuffled r (train_records E)) [])
        as (rows & cs & -> & Hrows);
        [right; apply shuffled_nonempty; exact Hne | ]
  end.
  cbn [map for_each]. unfold bind at 1.
  rewrite (train_batch_full E a (held_out_loader E a) (0 + 1) rows (0, eval_steps a)
             _ Hs Hr2 Hd);
    [ | unfold is_training, setup_world, setup_heap; cbn [heap];
        rewrite lookup_insert_eq; reflexivity
      | reflexivity ].
  exists rows. split; [exact Hrows | ].
  cbn [trace grad_enabled heap setup_world]. rewrite <- !app_assoc. reflexivity.
Qed.

Lemma training_stops_at_optimizer_witness :
  exists rows,
    rows <> [] /\
    main sample_env (sample_args false (Some "best.pth.tar") 2) 3 initial_world
    = (Raise (NameError "optimizer"),
       {| trace := trace (setup_world sample_env
                            (sample_args false (Some "best.pth.tar") 2))
                   ++ [EpochStart 1; Log ("Starting epoch " +:+ pretty 1 +:+ "...")]
                   ++ batch_trace sample_env rows;
          grad_enabled := true;
          heap := setup_heap sample_env
                    (sample_args false (Some "best.pth.tar") 2) |}).
Proof.
  apply (training_stops_at_optimizer sample_env
           (sample_args false (Some "best.pth.tar") 2) 3%nat).
  - reflexivity.
  - reflexivity.
  - apply sample_env_returns.
  - exact sample_env_decodable.
  - reflexivity.
  - discriminate.
  - discriminate.
  - lia.
Defined.

(** No epoch configured: when the set-up calls return and the training set is
    not empty, [main] returns as soon as the set-up is done, whatever the
    fuel; no epoch starts and no batch is read. *)
Theorem zero_epochs_returns E a fuel :
  returns E setup_sites ->
  short_test a = true \/ truthy (load_path a) = true ->
  0 < batch_size a ->
  train_records E <> [] ->
  num_epochs a = 0 ->
  main E a fuel initial_world = (Ok tt, setup_world E a) /\
  epochs_started (trace (setup_world E a)) = 0%nat /\
  forwards (trace (setup_world E a)) = 0%nat.
Proof.
  intros Hr Hmode Hb Hne Hep.
  split; [ | exact (setup_world_counts E a)].
  rewrite (main_setup_run E a fuel Hr Hmode Hb Hne).
  rewrite floordiv_zero_run
    by (destruct (train_records E); [congruence | discriminate]).
  rewrite Hep. destruct fuel; reflexivity.
Qed.

Lemma zero_epochs_returns_witness :
  main sample_env (sample_args false (Some "best.pth.tar") 0) 0 initial_world
  = (Ok tt, setup_world sample_env (sample_args false (Some "best.pth.tar") 0)).
Proof.
  apply (zero_epochs_returns sample_env (sample_args false (Some "best.pth.tar") 0)
           0%nat).
  - apply sample_env_returns.
  - right. reflexivity.
  - reflexivity.
  - discriminate.
  - reflexivity.
Defined.

(** ** Printing the paraphrases *)

Lemma first_missing_spec (d : gmap string string) (ws : list Z) (tok : Z) :
  first_missing d ws = Some tok -> In tok ws /\ d !! pretty tok = None.
Proof.
  induction ws as [|x ws IH]; simpl; [discriminate | ].
  destruct (d !! pretty x) eqn:Hx.
  - intros H. destruct (IH H) as [Hin Hn]. split; [right; exact Hin | exact Hn].
  - intros [= <-]. split; [left; reflexivity | exact Hx].
Qed.

Lemma words_of_none (d : gmap string string) (ws : list Z) :
  words_of d ws = None -> exists tok, first_missing d ws = Some tok.
Proof.
  induction ws as [|x ws IH]; simpl; [discriminate | ].
  destruct (d !! pretty x); [ | eexists; reflexivity].
  destruct (words_of d ws); [discriminate | ]. intros _. apply IH. reflexivity.
Qed.

Lemma lookup_words_missing (d : gmap string string) (ws : list Z) (tok : Z) (w : world) :
  first_missing d ws = Some tok ->
  lookup_words d ws w = (Raise (KeyError (pretty tok)), w).
Proof.
  induction ws as [|x ws IH]; simpl; [discriminate | ].
  unfold bind, subscript. destruct (d !! pretty x).
  - intros H. unfold ret at 1. rewrite (IH H). reflexivity.
  - intros [= <-]. reflexivity.
Qed.

(** A row that cannot be printed: when the rows before [p] decode and [p]
    does not, the printing loop prints the rows before [p] and raises at [p];
    the rows after [p] are not looked at.  It raises [TypeError] when [p] has
    exactly one non-zero token, which [squeeze()] turns into a tensor that
    cannot be iterated; otherwise [KeyError] with the decimal form of the
    first non-zero token of [p] that the index-to-word table lacks. *)
Theorem printing_stops_at_bad_row E (ps1 : list (list Z)) (p : list Z)
    (ps2 : list (list Z)) (w : world) :
  (forall n, ext_fail E NonZero n = None) ->
  (forall q, In q ps1 -> decoded E q <> None) ->
  decoded E p = None ->
  exists e,
    print_paraphrased E (ps1 ++ p :: ps2) w
    = (Raise e,
       {| trace := trace w ++ print_events E ps1 ++ [Called NonZero];
          grad_enabled := grad_enabled w; heap := heap w |}) /\
    ((e = TypeError "iteration over a 0-d tensor" /\
      exists x, List.filter (fun x => negb (x =? 0)) p = [x]) \/
     (exists tok,
        e = KeyError (pretty tok) /\
        In tok p /\ tok <> 0 /\ idx2word E !! pretty tok = None /\
        length (List.filter (fun x => negb (x =? 0)) p) <> 1%nat /\
        first_missing (idx2word E) (List.filter (fun x => negb (x =? 0)) p)
        = Some tok)).
Proof.
  intros Hnz Hd Hp.
  assert (Hpre : forall (k : unit -> M unit) w,
             bind (print_paraphrased E ps1) k w
             = k tt {| trace := trace w ++ print_events E ps1;
                       grad_enabled := grad_enabled w; heap := heap w |}).
  { intros k w0. unfold bind at 1.
    rewrite (print_paraphrased_run E ps1 w0 Hnz Hd). reflexivity. }
  assert (Happ : forall w,
             print_paraphrased E (ps1 ++ p :: ps2) w
             = bind (print_paraphrased E ps1)
                    (fun _ => print_paraphrased E (p :: ps2)) w).
  { clear Hpre Hd. induction ps1 as [|q ps1 IH]; intros w0.
    - reflexivity.
    - cbn [app print_paraphrased]. unfold bind.
      destruct (ext E NonZero w0) as [[[]|e|] w1]; try reflexivity.
      destruct (iter_tensor _ w1) as [[ws|e|] w2]; try reflexivity.
      destruct (lookup_words _ ws w2) as [[l|e|] w3]; try reflexivity.
      cbn [emit]. specialize (IH {| trace := trace w3 ++ [Printed (String.concat " " l)];
                                    grad_enabled := grad_enabled w3; heap := heap w3 |}).
      unfold bind in IH. exact IH. }
  rewrite Happ, Hpre. cbn [print_paraphrased].
  rewrite run_ext by apply Hnz. run_norm. rewrite <- app_assoc.
  unfold decoded in Hp.
  destruct (List.filter (fun x => negb (x =? 0)) p) as [|x [|y l]] eqn:Hfl;
    cbn [squeeze iter_tensor] in *.
  - discriminate.
  - eexists. split; [reflexivity | ]. left. split; [reflexivity | ].
    exists x. reflexivity.
  - assert (Hw : words_of (idx2word E) (x :: y :: l) = None)
      by (destruct (words_of _ _); [discriminate | reflexivity]).
    destruct (words_of_none _ _ Hw) as [tok Htok].
    destruct (first_missing_spec _ _ _ Htok) as [Hin Hnone].
    rewrite <- Hfl in Hin. apply filter_In in Hin as [Hin Hz].
    rewrite run_ret. unfold bind at 1.
    rewrite (lookup_words_missing _ _ tok _ Htok).
    eexists. split; [reflexivity | ]. right. exists tok.
    split; [reflexivity | split; [exact Hin | split; [ | split; [exact Hnone | ]]]].
    + intros ->. discriminate.
    + split; [simpl; lia | exact Htok].
Qed.

Lemma printing_stops_at_bad_row_witness :
  exists e,
    print_paraphrased sparse_env ([[3; 0; 3]] ++ [3; 0; 4] :: [[4]]) initial_world
    = (Raise e,
       {| trace := trace initial_world ++ print_events sparse_env [[3; 0; 3]]
                   ++ [Called NonZero];
          grad_enabled := grad_enabled initial_world;
          heap := heap initial_world |}) /\
    ((e = TypeError "iteration over a 0-d tensor" /\
      exists x, List.filter (fun x => negb (x =? 0)) [3; 0; 4] = [x]) \/
     (exists tok,
        e = KeyError (pretty tok) /\
        In tok [3; 0; 4] /\ tok <> 0 /\ idx2word sparse_env !! pretty tok = None /\
        length (List.filter (fun x => negb (x =? 0)) [3; 0; 4]) <> 1%nat /\
        first_missing (idx2word sparse_env)
          (List.filter (fun x => negb (x =? 0)) [3; 0; 4]) = Some tok)).
Proof.
  apply (printing_stops_at_bad_row sparse_env [[3; 0; 3]] [3; 0; 4] [[4]]
           initial_world).
  - intros n. reflexivity.
  - intros q [<-|[]]. vm_compute. discriminate.
  - vm_compute. reflexivity.
Defined.

(** A row with one non-zero token ends a run of [main] at line 142, in
    short-test mode and in full training mode alike, although its token has
    a word. *)
Example single_token_row_ends_the_run :
  idx2word one_token_env !! "3" = Some "what" /\
  fst (main one_token_env (sample_args true None 2) 3 initial_world)
  = Raise (TypeError "iteration over a 0-d tensor") /\
  fst (main one_token_env (sample_args false (Some "best.pth.tar") 2) 3
         initial_world)
  = Raise (TypeError "iteration over a 0-d tensor").
Proof. repeat split; vm_compute; reflexivity. Qed.

(** ** What [main] never reaches, and what it builds *)

(** No run of [main] opens the evaluation file, runs a span model, computes a
    loss, discretizes or converts predictions, scores them, writes a
    TensorBoard scalar or visualizes: none of these calls is ever made, or
    even attempted. *)
Theorem main_never_scores_or_reports E a fuel (s : site) :
  Called s ∈ trace (snd (main E a fuel initial_world)) \/
  (exists e, Failed s e ∈ trace (snd (main E a fuel initial_world))) ->
  ~ In s [OpenEvalFile; JsonLoad; ModelForward; NllLoss; Discretize;
          ConvertTokens; EvalDicts; TbxAddScalar; Visualize].
Proof.
  intros H Hin.
  assert (Hs : main_site a s).
  { destruct H as [H|[e H]]; exact (main_events E a fuel _ H). }
  simpl in Hin.
  repeat (destruct Hin as [<-|Hin]; [exact Hs | ]). exact Hin.
Qed.

Lemma main_never_scores_or_reports_witness :
  Called ParaphraserForward
    ∈ trace (snd (main sample_env (sample_args true None 2) 3 initial_world)) /\
  ~ In ParaphraserForward
       [OpenEvalFile; JsonLoad; ModelForward; NllLoss; Discretize;
        ConvertTokens; EvalDicts; TbxAddScalar; Visualize].
Proof.
  assert (Hin : Called ParaphraserForward
                  ∈ trace (snd (main sample_env (sample_args true None 2) 3
                                  initial_world))).
  { apply list_elem_of_In. vm_compute. repeat first [left; reflexivity | right]. }
  split; [exact Hin | ].
  exact (main_never_scores_or_reports sample_env (sample_args true None 2) 3 _
           (or_introl Hin)).
Defined.

(** The models [main] builds: only a BiDAF and a Paraphraser.  The BiDAF
    model always gets the configured hidden size, also in short-test mode,
    where the size is overridden only after it is built; the Paraphraser gets
    5 in short-test mode and the configured size otherwise. *)
Theorem models_built E a fuel (what : string) (h : Z) :
  Built what h ∈ trace (snd (main E a fuel initial_world)) ->
  (what = "BiDAF" /\ h = hidden_size a) \/
  (what = "Paraphraser" /\ h = if short_test a then 5 else hidden_size a).
Proof. intros Hin. exact (main_events E a fuel _ Hin). Qed.

Lemma models_built_witness :
  let t := trace (snd (main sample_env (sample_args true None 2) 3 initial_world)) in
  Built "BiDAF" 100 ∈ t /\ Built "Paraphraser" 5 ∈ t /\
  (("BiDAF" = "BiDAF" /\ 100 = hidden_size (sample_args true None 2)) \/
   ("BiDAF" = "Paraphraser" /\
    100 = if short_test (sample_args true None 2) then 5
          else hidden_size (sample_args true None 2))).
Proof.
  intros t.
  assert (H1 : Built "BiDAF" 100 ∈ t).
  { apply list_elem_of_In. vm_compute. repeat first [left; reflexivity | right]. }
  assert (H2 : Built "Paraphraser" 5 ∈ t).
  { apply list_elem_of_In. vm_compute. repeat first [left; reflexivity | right]. }
  split; [exact H1 | split; [exact H2 | ]].
  exact (models_built sample_env (sample_args true None 2) 3 _ _ H1).
Defined.

(** ** Modes during [main] *)

Lemma models_differ' : bidaf_model <> paraphaser_model.
Proof. discriminate. Qed.

Ltac para_simpl_in H :=
  repeat first [ rewrite lookup_insert_eq in H
               | rewrite (lookup_insert_ne _ _ _ _ models_differ') in H
               | rewrite (lookup_alter_ne _ _ _ _ models_differ') in H
               | rewrite lookup_empty in H ].

Ltac solve_mode_event :=
  lazymatch goal with
  | |- mode_ok _ (Forward _ _ _ _) =>
      cbn [mode_ok]; split;
      [ unfold is_training; cbn [heap];
        lazymatch goal with
        | Hp : para_training ?h |- context [?h !! paraphaser_model] =>
            let Hl := fresh "Hl" in
            destruct (h !! paraphaser_model) eqn:Hl;
            [ exact (Hp _ Hl) | reflexivity ]
        end
      | first [ reflexivity | assumption ] ]
  | |- mode_ok _ (SetMode _ _) =>
      cbn [mode_ok]; split; [reflexivity | split; [reflexivity | ]];
      heap_simpl; eexists; split; reflexivity
  | |- mode_ok _ _ => exact I
  end.

Ltac solve_mode_trace :=
  repeat (apply Forall_snoc; [ | solve_mode_event ]);
  first [ exact (List.Forall_nil _) | assumption ].

Ltac solve_para :=
  first [ assumption
        | let st := fresh "st" in let H := fresh "H" in
          intros st H; para_simpl_in H; inversion H; reflexivity ].

Ltac mode_leaf :=
  lazymatch goal with
  | |- mode_inv _ =>
      unfold mode_inv; cbn [trace heap grad_enabled];
      split; [ solve_mode_trace | split; [ first [reflexivity | assumption] | solve_para ] ]
  end.

Lemma print_paraphrased_modes E (ps : list (list Z)) (w : world) :
  mode_inv w ->
  wp (print_paraphrased E ps) (fun _ => mode_inv) (fun _ => mode_inv) w.
Proof.
  revert w. induction ps as [|p ps IH]; intros w (Ht & Hg & Hp); simpl.
  - apply wp_ret. repeat split; assumption.
  - wp_step. wp_step; [mode_leaf | ]. wp_step.
    destruct (squeeze (List.filter (fun x => negb (x =? 0)) p)) as [x|ws];
      cbn [iter_tensor]; wp_step; [mode_leaf | ].
    wp_step. unfold wp at 1.
    pose proof (lookup_words_run (idx2word E) ws
                  {| trace := trace w ++ [Called NonZero];
                     grad_enabled := grad_enabled w; heap := heap w |}) as Hrun.
    destruct (words_of (idx2word E) ws) as [l|].
    + rewrite Hrun. wp_step. wp_step. apply IH. mode_leaf.
    + destruct Hrun as [k ->]. mode_leaf.
Qed.

Lemma train_batch_modes E a dl epoch rows st (w : world) :
  mode_inv w ->
  wp (train_batch E a dl epoch (collate_fn_para rows) st)
     (fun _ => mode_inv) (fun _ => mode_inv) w.
Proof.
  intros (Ht & Hg & Hp).
  cbn [collate_fn_para map para_fields train_batch].
  repeat wp_step; try (mode_leaf; fail).
  eapply wp_mono; [ apply print_paraphrased_modes; mode_leaf | | auto ].
  intros ? w' (Ht' & Hg' & Hp'). cbv beta. repeat wp_step.
  - mode_leaf.
  - rewrite train_step_raises. wp_step. mode_leaf.
Qed.

Lemma training_modes E a tl dl fuel epoch st (w : world) :
  collate_fn tl = collate_fn_para ->
  mode_inv w ->
  wp (epoch_loop (train_epoch E a tl dl) (num_epochs a) fuel epoch st)
     (fun _ => mode_inv) (fun _ => mode_inv) w.
Proof.
  intros Hcol Hw.
  apply (wp_epoch_loop (fun _ _ => mode_inv)); [auto | auto | | exact Hw].
  clear Hw w. intros ep s w _ (Ht & Hg & Hp).
  unfold train_epoch. wp_step. wp_step.
  apply wp_with_grad. wp_step. apply wp_iter_loader. intros r.
  rewrite Hcol.
  assert (Hback : forall w' : world,
             mode_inv w' ->
             mode_inv {| trace := trace w'; grad_enabled := grad_enabled w;
                         heap := heap w' |}).
  { intros w' (Ht' & _ & Hp'). repeat split; assumption. }
  eapply (wp_mono _ (fun _ => mode_inv) _ (fun _ => mode_inv)).
  - apply (wp_for_each (fun _ => mode_inv)
             (fun b => exists rows, b = collate_fn_para rows)).
    + apply Forall_map. apply Forall_forall. intros rows _. exists rows. reflexivity.
    + intros s' w' H. exact H.
    + intros b s' w' [rows ->] H.
      eapply wp_mono; [apply train_batch_modes; exact H | | auto].
      intros [[v|] s''] w'' H'; exact H'.
    + mode_leaf.
  - intros [[v|] s'] w' H; cbv beta; apply Hback, H.
  - intros ? w' H. apply Hback, H.
Qed.

Lemma main_run_modes E a fuel :
  wp (main E a fuel) (fun _ => mode_inv) (fun _ => mode_inv) initial_world.
Proof.
  unfold main.
  repeat wp_step; try (mode_leaf; fail).
  all: unfold floordiv; wp_step; wp_step; [mode_leaf | ].
  all: apply training_modes; [reflexivity | mode_leaf].
Qed.

(** Modes during [main], in every run, also one that fails or runs out of
    fuel: each forward pass is made in training mode with gradients switched
    on; the only mode switch is the BiDAF module's [eval()], and a run that
    made it ends with that module in inference mode; the Paraphraser module
    is in training mode at the end; and gradients are switched on at the end,
    the [with torch.enable_grad()] having restored them. *)
Theorem main_modes E a fuel :
  let w := snd (main E a fuel initial_world) in
  (forall m xs tr g, Forward m xs tr g ∈ trace w -> tr = true /\ g = true) /\
  (forall m b, SetMode m b ∈ trace w ->
     m = bidaf_model /\ b = false /\
     exists st, heap w !! bidaf_model = Some st /\ training st = false) /\
  (forall st, heap w !! paraphaser_model = Some st -> training st = true) /\
  grad_enabled w = true.
Proof.
  intros w.
  assert (H : mode_inv w).
  { pose proof (wp_run _ _ _ _ (main_run_modes E a fuel)) as H.
    destruct (fst (main E a fuel initial_world)) as [[]|e|]; exact H. }
  destruct H as (Ht & Hg & Hp).
  rewrite Forall_forall in Ht.
  repeat split.
  - exact (proj1 (Ht _ H)).
  - exact (proj2 (Ht _ H)).
  - exact (proj1 (Ht _ H)).
  - exact (proj1 (proj2 (Ht _ H))).
  - exact (proj2 (proj2 (Ht _ H))).
  - exact Hp.
  - exact Hg.
Qed.

Lemma main_modes_witness :
  let w := snd (main sample_env (sample_args false (Some "best.pth.tar") 2) 3
                  initial_world) in
  SetMode bidaf_model false ∈ trace w /\
  exists st, heap w !! bidaf_model = Some st /\ training st = false.
Proof.
  intros w.
  assert (Hin : SetMode bidaf_model false ∈ trace w).
  { apply list_elem_of_In. vm_compute. repeat first [left; reflexivity | right]. }
  split; [exact Hin | ].
  exact (proj2 (proj2 (proj1 (proj2 (main_modes sample_env
                  (sample_args false (Some "best.pth.tar") 2) 3)) _ _ Hin))).
Defined.

(** ** Failures are not handled *)

Lemma clean_no_failure (t : list event) (s : site) (e : exn) :
  clean t -> Failed s e ∈ t -> False.
Proof. intros Hc Hin. unfold clean in Hc. rewrite Forall_forall in Hc. exact (Hc _ Hin I). Qed.

Lemma failure_is_last (t : list event) (s : site) (e e' : exn) :
  raised_here e' t -> Failed s e ∈ t ->
  e' = e /\ exists t', t = (t' ++ [Failed s e])%list /\ clean t'.
Proof.
  intros [(s' & t' & -> & Hc)|[Hc _]] Hin.
  - apply elem_of_app in Hin as [Hin|Hin].
    + destruct (clean_no_failure _ _ _ Hc Hin).
    + apply list_elem_of_singleton in Hin. injection Hin as -> ->.
      split; [reflexivity | exists t'; split; [reflexivity | exact Hc]].
  - destruct (clean_no_failure _ _ _ Hc Hin).
Qed.

(** [main] handles no exception: when a framework call fails, the run ends
    by raising that call's exception, the failed call is the last thing the
    run did, and no call had failed before it. *)
Theorem main_stops_at_first_failure E a fuel (s : site) (e : exn) :
  let r := main E a fuel initial_world in
  Failed s e ∈ trace (snd r) ->
  fst r = Raise e /\
  exists t, trace (snd r) = (t ++ [Failed s e])%list /\ clean t.
Proof.
  intros r Hin. pose proof (main_outcome E a fuel) as H. cbv zeta in H. fold r in H.
  destruct (fst r) as [[]|e'|].
  - destruct (clean_no_failure _ _ _ H Hin).
  - destruct (failure_is_last _ _ _ _ H Hin) as [-> Ht]. split; [reflexivity | exact Ht].
  - destruct (clean_no_failure _ _ _ H Hin).
Qed.

Lemma main_stops_at_first_failure_witness :
  let r := main failing_env (sample_args true None 2) 3 initial_world in
  Failed TorchFromJson (External "unreadable file") ∈ trace (snd r) /\
  fst r = Raise (External "unreadable file") /\
  exists t, trace (snd r)
            = (t ++ [Failed TorchFromJson (External "unreadable file")])%list /\
            clean t.
Proof.
  intros r.
  assert (Hin : Failed TorchFromJson (External "unreadable file") ∈ trace (snd r)).
  { apply list_elem_of_In. vm_compute. repeat first [left; reflexivity | right]. }
  split; [exact Hin | ].
  exact (main_stops_at_first_failure failing_env (sample_args true None 2) 3 _ _ Hin).
Defined.

(** *** Where a failure of [evaluate] falls *)

Ltac solve_before :=
  repeat (apply Forall_snoc; [ | split; [exact (fun H => H) | split; discriminate] ]);
  first [ exact (List.Forall_nil _) | assumption ].

Ltac solve_after :=
  repeat (constructor;
          [ first [ left; reflexivity | right; eexists; reflexivity ] | ]);
  exact (List.Forall_nil _).

Ltac placed_leaf :=
  lazymatch goal with
  | |- placed _ _ =>
      unfold placed; cbn [trace];
      first [ left; eexists; (split; [ | left; reflexivity ]); solve_before
            | left; eexists;
              (split; [ | right; eexists _, _; (split; [ | reflexivity ]);
                          discriminate ]);
              solve_before
            | right; rewrite <- ?app_assoc; cbn [app]; eexists _, _;
              (split; [ | split; [ | reflexivity ] ]);
              [ solve_before | solve_after ] ]
  end.

Lemma eval_batch_placed E model max_len v2 batch st (w : world) :
  Forall (before_train model) (trace w) ->
  wp (eval_batch E model max_len v2 batch st)
     (fun _ w' => Forall (before_train model) (trace w'))
     (fun _ => placed model) w.
Proof.
  intros Ht. unfold eval_batch.
  destruct batch as [|? [|? [|? [|? [|? [|? [|? [|? ?]]]]]]]];
    try (wp_step; placed_leaf; fail).
  unfold nll_loss_sum.
  repeat wp_step; try (placed_leaf; fail).
  solve_before.
Qed.

Lemma evaluate_run_placed E model ld f ml v2 (h : gmap nat module_st) (g : bool) :
  wp (evaluate E model ld f ml v2)
     (fun _ => placed model) (fun _ => placed model) (start h g).
Proof.
  unfold evaluate, start.
  repeat wp_step; try (placed_leaf; fail).
  apply wp_with_grad. wp_step. apply wp_iter_loader. intros r.
  eapply (wp_mono _ (fun _ w => Forall (before_train model) (trace w)) _
            (fun _ => placed model)).
  - apply (wp_for_each (fun _ w => Forall (before_train model) (trace w))
             (fun _ => True)).
    + apply Forall_forall. intros; exact I.
    + intros s w H. exact H.
    + intros b s w _ H.
      eapply wp_mono; [apply eval_batch_placed; exact H | | auto].
      intros [[v|] s'] w' H'; [destruct v | exact H'].
    + cbn [trace]. solve_before.
  - intros _x w Ht. cbv beta.
    repeat wp_step; try (placed_leaf; fail).
    apply wp_subscript; [intros f1 _ | intros _; placed_leaf].
    wp_step. apply wp_subscript; [intros em _ | intros _; placed_leaf].
    wp_step. wp_step.
    + wp_step. apply wp_subscript; [intros av _ | intros _; placed_leaf].
      wp_step. wp_step. placed_leaf.
    + wp_step. wp_step. placed_leaf.
  - intros x w H. exact H.
Qed.

Lemma placed_failure (model : nat) (w : world) (s : site) (e : exn) :
  placed model w ->
  Failed s e ∈ trace w ->
  (s = EvalDicts /\ SetMode model true ∈ trace w) \/
  (s <> EvalDicts /\ SetMode model true ∉ trace w).
Proof.
  intros [(t & Ht & [Heq | (s' & e' & Hs' & Heq)]) | (t & tail & Ht & Htail & Heq)]
         Hin; rewrite Heq in *; rewrite Forall_forall in Ht.
  - destruct (proj1 (Ht _ Hin) I).
  - right. apply elem_of_app in Hin as [Hin|Hin].
    + destruct (proj1 (Ht _ Hin) I).
    + apply list_elem_of_singleton in Hin. injection Hin as -> ->.
      split; [exact Hs' | ]. intros Hm.
      apply elem_of_app in Hm as [Hm|Hm].
      * exact (proj1 (proj2 (Ht _ Hm)) eq_refl).
      * apply list_elem_of_singleton in Hm. discriminate.
  - left. apply elem_of_app in Hin as [Hin|Hin].
    + destruct (proj1 (Ht _ Hin) I).
    + apply elem_of_cons in Hin as [Hin|Hin]; [discriminate | ].
      rewrite Forall_forall in Htail.
      destruct (Htail _ Hin) as [Hc|[x Hf]]; [discriminate | ].
      injection Hf as -> _.
      split; [reflexivity | ].
      apply elem_of_app. right. apply elem_of_cons. left. reflexivity.
Qed.

(** [evaluate] handles no exception either: called on an existing module, a
    failed framework call ends it with that call's exception, as the last
    thing it did and the first failure.  When the failed call is any but
    [util.eval_dicts], [model.train()] (line 240) has not been reached and
    the model is left in inference mode; when it is [util.eval_dicts] (line
    242), [model.train()] has run and the model is in training mode. *)
Theorem evaluate_stops_at_first_failure E model ld f ml v2
    (h : gmap nat module_st) (g : bool) (s : site) (e : exn) :
  is_Some (h !! model) ->
  let r := evaluate E model ld f ml v2 (start h g) in
  Failed s e ∈ trace (snd r) ->
  fst r = Raise e /\
  (exists t, trace (snd r) = (t ++ [Failed s e])%list /\ clean t) /\
  (s <> EvalDicts ->
   (SetMode model true ∉ trace (snd r)) /\ is_training (snd r) model = false) /\
  (s = EvalDicts ->
   SetMode model true ∈ trace (snd r) /\ is_training (snd r) model = true).
Proof.
  intros Hm r Hin.
  pose proof (evaluate_outcome E model ld f ml v2 h g Hm) as H.
  cbv zeta in H. fold r in H.
  pose proof (wp_run _ _ _ _ (evaluate_run_inv E model ld f ml v2 h g Hm)) as Hpost.
  fold (start h g) in Hpost. fold r in Hpost.
  pose proof (wp_run _ _ _ _ (evaluate_run_placed E model ld f ml v2 h g)) as Hpl.
  fold r in Hpl.
  assert (Hplaced : placed model (snd r)) by (destruct (fst r) as [?|?|]; exact Hpl).
  destruct (fst r) as [[]|e'|].
  - destruct (clean_no_failure _ _ _ H Hin).
  - destruct (failure_is_last _ _ _ _ H Hin) as [-> Ht].
    split; [reflexivity | split; [exact Ht | ]].
    destruct Hpost as (_ & _ & _ & Hmode).
    destruct (placed_failure _ _ _ _ Hplaced Hin) as [[Hs Hset]|[Hs Hset]].
    + split; [intros Hne; contradiction | intros _].
      split; [exact Hset | ].
      destruct Hmode as [[Hno _]|[_ Hh]].
      * rewrite Forall_forall in Hno. destruct (Hno _ Hset eq_refl).
      * apply (is_training_alter true model h); assumption.
    + split; [intros _ | intros Heq; contradiction].
      split; [exact Hset | ].
      destruct Hmode as [[_ Hh]|[Hyes _]]; [ | contradiction].
      apply (is_training_eval model h); assumption.
  - destruct (clean_no_failure _ _ _ H Hin).
Qed.

Lemma evaluate_stops_at_first_failure_witness :
  let r := evaluate failing_env 5 squad_loader "dev_eval.json" 15 true
             (start sample_heap true) in
  Failed JsonLoad (External "unreadable file") ∈ trace (snd r) /\
  fst r = Raise (External "unreadable file") /\
  is_training (snd r) 5 = false.
Proof.
  intros r.
  assert (Hm : is_Some (sample_heap !! 5%nat)) by (eexists; reflexivity).
  assert (Hin : Failed JsonLoad (External "unreadable file") ∈ trace (snd r)).
  { apply list_elem_of_In. vm_compute. repeat first [left; reflexivity | right]. }
  split; [exact Hin | ].
  destruct (evaluate_stops_at_first_failure failing_env 5 squad_loader
              "dev_eval.json" 15 true sample_heap true _ _ Hm Hin)
    as (Hf & _ & Hbefore & _).
  split; [exact Hf | ].
  exact (proj2 (Hbefore ltac:(discriminate))).
Defined.
